(** * A SQL question-answering agent: retry state machine, prompts, parser

    Shallow embedding of [qa_agent.py] and the properties of its
    orchestration: the generate/execute retry cycle, the SELECT-only
    validator and row limiter, the prose-tolerant response parser, the
    prompt builder and the trace recorder.

    Modelling conventions.
    - A Python [str] is a [string]; one character stands for one code point
      below 256.  Text outside that alphabet is not covered.
    - A Python [int] is a [Z].
    - The session state, a [TypedDict] with [total=False], is a record whose
      optional keys are [option] fields.
    - The language model, the database connection and the clock are
      collaborators handed to the agent; they act on an abstract [World].
    - [json.loads] and [json.dumps] belong to the Python library and are an
      interface too; a reference decoder instantiates it for the scenarios. *)

From Stdlib Require Import ZArith List Bool Ascii String Lia.
From Stdlib Require Import Numbers.DecimalString.
Import ListNotations.

Open Scope string_scope.
Open Scope Z_scope.

(** ** Python text primitives *)

Module PyStr.

Definition dquote : string := String "034"%char EmptyString.
Definition nl : string := String "010"%char EmptyString.

Definition code (c : ascii) : nat := nat_of_ascii c.

Definition between (lo hi n : nat) : bool := (lo <=? n)%nat && (n <=? hi)%nat.

(** [str.isspace] on one character: the code points below 256 that Python
    classifies as whitespace. *)
Definition isspace (c : ascii) : bool :=
  let n := code c in
  between 9 13 n || between 28 32 n || (n =? 133)%nat || (n =? 160)%nat.

(** [str.lower] on one character: A-Z and the Latin-1 capitals. *)
Definition lower_char (c : ascii) : ascii :=
  let n := code c in
  if between 65 90 n || (between 192 222 n && negb (n =? 215)%nat)
  then ascii_of_nat (n + 32) else c.

Fixpoint lower (s : string) : string :=
  match s with
  | EmptyString => EmptyString
  | String c r => String (lower_char c) (lower r)
  end.

Fixpoint mem (c : ascii) (chars : string) : bool :=
  match chars with
  | EmptyString => false
  | String d r => Ascii.eqb c d || mem c r
  end.

Fixpoint lstrip_by (p : ascii -> bool) (s : string) : string :=
  match s with
  | EmptyString => EmptyString
  | String c r => if p c then lstrip_by p r else s
  end.

Fixpoint rstrip_by (p : ascii -> bool) (s : string) : string :=
  match s with
  | EmptyString => EmptyString
  | String c r =>
      match rstrip_by p r with
      | EmptyString => if p c then EmptyString else String c EmptyString
      | r' => String c r'
      end
  end.

(** [s.strip()] *)
Definition strip (s : string) : string := lstrip_by isspace (rstrip_by isspace s).

(** [s.rstrip(chars)] *)
Definition rstrip_chars (chars s : string) : string :=
  rstrip_by (fun c => mem c chars) s.

(** [s.startswith(p)] *)
Definition startswith (p s : string) : bool := String.prefix p s.

(** [sub in s] *)
Fixpoint contains (sub s : string) : bool :=
  String.prefix sub s ||
  match s with
  | EmptyString => false
  | String _ r => contains sub r
  end.

(** [s.find(sub)]: lowest index of an occurrence, or -1. *)
Fixpoint find (sub s : string) : Z :=
  if String.prefix sub s then 0
  else match s with
       | EmptyString => -1
       | String _ r => let k := find sub r in if k <? 0 then -1 else k + 1
       end.

(** [s.rfind(sub)]: highest index of an occurrence, or -1. *)
Fixpoint rfind (sub s : string) : Z :=
  match s with
  | EmptyString => if String.prefix sub s then 0 else -1
  | String _ r =>
      let k := rfind sub r in
      if 0 <=? k then k + 1
      else if String.prefix sub s then 0 else -1
  end.

(** [s[a:b]] for [0 <= a <= b]. *)
Definition slice (a b : Z) (s : string) : string :=
  String.substring (Z.to_nat a) (Z.to_nat (b - a)) s.

(** [len(s)] *)
Definition len (s : string) : Z := Z.of_nat (String.length s).

(** [sep.join(parts)] *)
Definition join (sep : string) (parts : list string) : string :=
  String.concat sep parts.

(** [s.split("\n")]: never empty, one entry per line. *)
Fixpoint split_nl (s : string) : list string :=
  match s with
  | EmptyString => [EmptyString]
  | String c r =>
      if Ascii.eqb c "010"%char then EmptyString :: split_nl r
      else match split_nl r with
           | l :: ls => String c l :: ls
           | [] => [String c EmptyString]
           end
  end.

(** [str(n)] for an [int]. *)
Definition str_of_int (n : Z) : string := NilZero.string_of_int (Z.to_int n).

End PyStr.

(** ** [textwrap.dedent]

    The library routine, as CPython implements it with two regular
    expressions: lines made only of spaces and tabs are emptied, then the
    longest leading run of spaces and tabs common to all remaining non-empty
    lines is removed from every line. *)

Module Textwrap.
Import PyStr.

Definition blank_char (c : ascii) : bool :=
  Ascii.eqb c " "%char || Ascii.eqb c "009"%char.

Fixpoint all_blank (s : string) : bool :=
  match s with
  | EmptyString => true
  | String c r => blank_char c && all_blank r
  end.

(** A line made of one or more spaces and tabs and nothing else (the line
    the first expression matches). *)
Definition whitespace_only (l : string) : bool :=
  match l with
  | EmptyString => false
  | _ => all_blank l
  end.

Definition empty_if_blank (l : string) : string :=
  if whitespace_only l then EmptyString else l.

Definition normalize (text : string) : string :=
  join nl (map empty_if_blank (split_nl text)).

(** The leading run of spaces and tabs of a line that has some other
    character after it (the group the second expression captures). *)
Fixpoint leading_blank (l : string) : string :=
  match l with
  | EmptyString => EmptyString
  | String c r => if blank_char c then String c (leading_blank r) else EmptyString
  end.

Definition indent_of (l : string) : option string :=
  if all_blank l then None else Some (leading_blank l).

Fixpoint indents (ls : list string) : list string :=
  match ls with
  | [] => []
  | l :: r => match indent_of l with
              | Some i => i :: indents r
              | None => indents r
              end
  end.

Fixpoint common_prefix (a b : string) : string :=
  match a, b with
  | String x a', String y b' =>
      if Ascii.eqb x y then String x (common_prefix a' b') else EmptyString
  | _, _ => EmptyString
  end.

Definition margin_step (margin : option string) (indent : string) : option string :=
  match margin with
  | None => Some indent
  | Some m =>
      if startswith m indent then Some m
      else if startswith indent m then Some indent
      else Some (common_prefix m indent)
  end.

Definition margin (text : string) : option string :=
  fold_left margin_step (indents (split_nl text)) None.

Definition remove_margin (m l : string) : string :=
  if startswith m l
  then String.substring (String.length m) (String.length l - String.length m)%nat l
  else l.

Definition dedent (text : string) : string :=
  let text := normalize text in
  match margin text with
  | None | Some EmptyString => text
  | Some m => join nl (map (remove_margin m) (split_nl text))
  end.

End Textwrap.

(** ** Python values

    The values [json.loads] produces and the database returns.  A float is
    kept as the decimal it was written as ([m * 10^e]); binary rounding is
    not modelled. *)

Set Warnings "-register-all".

Inductive pyfloat : Type :=
| FDec (m e : Z)
| FNaN
| FInf (negative : bool).

Inductive value : Type :=
| VNone
| VBool (b : bool)
| VInt (n : Z)
| VFloat (f : pyfloat)
| VStr (s : string)
| VList (items : list value)
| VDict (pairs : list (string * value)).

Module Dict.

Definition t : Type := list (string * value).

(** [d.get(k)] *)
Fixpoint get (k : string) (d : t) : option value :=
  match d with
  | [] => None
  | (k', v) :: r => if String.eqb k k' then Some v else get k r
  end.

(** [d[k] = v]: an existing key keeps its place. *)
Fixpoint set (k : string) (v : value) (d : t) : t :=
  match d with
  | [] => [(k, v)]
  | (k', v') :: r => if String.eqb k k' then (k, v) :: r else (k', v') :: set k v r
  end.

End Dict.

(** Truth value of a Python object. *)
Definition truthy (v : value) : bool :=
  match v with
  | VNone => false
  | VBool b => b
  | VInt n => negb (n =? 0)
  | VFloat (FDec m _) => negb (m =? 0)
  | VFloat _ => true
  | VStr s => negb (String.eqb s EmptyString)
  | VList l => match l with [] => false | _ => true end
  | VDict d => match d with [] => false | _ => true end
  end.

(** [v == s] for a string literal [s]. *)
Definition eq_str (v : value) (s : string) : bool :=
  match v with
  | VStr t => String.eqb t s
  | _ => false
  end.

(** ** The interfaces the agent is given *)

(** [json.loads] returns a value or raises; [inl] carries [str(e)] of the
    exception. *)
Class JsonLib : Type := {
  json_loads : string -> string + value;
  json_dumps : value -> string
}.

(** The injected collaborators: [llm] (prompt to completion), the database
    connection ([sqlite_master] for the introspection query of
    [_schema_text], [execute] for a query with optional parameters, each
    returning the error text on failure) and the clock behind [time.time]. *)
Class Collaborators : Type := {
  World : Type;
  llm : string -> World -> string * World;
  sqlite_master : World -> (string + list (option string)) * World;
  execute : string -> option value -> World ->
            (string + (list string * list (list value))) * World;
  time_ms : World -> Z * World
}.

(** ** Session state, trace events, configuration *)

Module Event.
Record t : Type := make {
  ts_ms : Z;
  node : string;
  data : list (string * value)
}.
End Event.

(** [QAState].  Keys the code reads with [state.get] are optional; [trace]
    is read through [setdefault], so a missing trace and an empty one are
    the same list. *)
Module QAState.

Record t : Type := make {
  question : string;
  schema : option string;
  decision : option string;
  clarification_question : option value;
  sql : option string;
  sql_params : option value;
  attempts : option Z;
  last_error : option string;
  columns : option (list string);
  rows : option (list (list value));
  answer : option value;
  trace : list Event.t
}.

Definition set_schema (v : string) (s : t) : t :=
  make (question s) (Some v) (decision s) (clarification_question s) (sql s)
       (sql_params s) (attempts s) (last_error s) (columns s) (rows s)
       (answer s) (trace s).

Definition set_decision (v : string) (s : t) : t :=
  make (question s) (schema s) (Some v) (clarification_question s) (sql s)
       (sql_params s) (attempts s) (last_error s) (columns s) (rows s)
       (answer s) (trace s).

Definition set_clarification_question (v : value) (s : t) : t :=
  make (question s) (schema s) (decision s) (Some v) (sql s)
       (sql_params s) (attempts s) (last_error s) (columns s) (rows s)
       (answer s) (trace s).

Definition set_sql (v : string) (s : t) : t :=
  make (question s) (schema s) (decision s) (clarification_question s) (Some v)
       (sql_params s) (attempts s) (last_error s) (columns s) (rows s)
       (answer s) (trace s).

Definition set_sql_params (v : value) (s : t) : t :=
  make (question s) (schema s) (decision s) (clarification_question s) (sql s)
       (Some v) (attempts s) (last_error s) (columns s) (rows s)
       (answer s) (trace s).

Definition set_attempts (v : Z) (s : t) : t :=
  make (question s) (schema s) (decision s) (clarification_question s) (sql s)
       (sql_params s) (Some v) (last_error s) (columns s) (rows s)
       (answer s) (trace s).

Definition set_last_error (v : string) (s : t) : t :=
  make (question s) (schema s) (decision s) (clarification_question s) (sql s)
       (sql_params s) (attempts s) (Some v) (columns s) (rows s)
       (answer s) (trace s).

Definition set_columns (v : list string) (s : t) : t :=
  make (question s) (schema s) (decision s) (clarification_question s) (sql s)
       (sql_params s) (attempts s) (last_error s) (Some v) (rows s)
       (answer s) (trace s).

Definition set_rows (v : list (list value)) (s : t) : t :=
  make (question s) (schema s) (decision s) (clarification_question s) (sql s)
       (sql_params s) (attempts s) (last_error s) (columns s) (Some v)
       (answer s) (trace s).

Definition set_answer (v : value) (s : t) : t :=
  make (question s) (schema s) (decision s) (clarification_question s) (sql s)
       (sql_params s) (attempts s) (last_error s) (columns s) (rows s)
       (Some v) (trace s).

Definition set_trace (v : list Event.t) (s : t) : t :=
  make (question s) (schema s) (decision s) (clarification_question s) (sql s)
       (sql_params s) (attempts s) (last_error s) (columns s) (rows s)
       (answer s) v.

(** The state [run_question] starts from:
    [{"question": question, "trace": [], "attempts": 0}]. *)
Definition initial (q : string) : t :=
  make q None None None None None (Some 0) None None None None [].

End QAState.

Abbreviation QAState := QAState.t.

Record AgentConfig : Type := {
  max_attempts : Z;
  max_rows : Z
}.

Definition default_config : AgentConfig := {| max_attempts := 2; max_rows := 50 |}.

(** The nodes wired into the graph by [build_app]. *)
Inductive node_id : Type :=
| N_load_schema | N_attempt | N_gen_sql | N_exec_sql | N_answer.

Definition node_id_eqb (a b : node_id) : bool :=
  match a, b with
  | N_load_schema, N_load_schema | N_attempt, N_attempt | N_gen_sql, N_gen_sql
  | N_exec_sql, N_exec_sql | N_answer, N_answer => true
  | _, _ => false
  end.

(** What escapes a node.  [DatabaseError] is the failure of the schema
    introspection query; [GraphRecursionError] is the graph engine giving
    up when its step budget is spent. *)
Inductive exn : Type :=
| AttributeError (receiver attribute : string)
| KeyError (key : string)
| DatabaseError (message : string)
| GraphRecursionError.

Inductive route : Type := retry | no_retry.

(** ** Prompts *)

Import PyStr.

Definition sql_prompt_head : string :=
  "You are a careful data assistant. Convert the user question into a single SQL SELECT query.".

Definition sql_prompt_rules : string :=
  "Rules:" ++ nl ++
  "- Use ONLY tables/columns in the schema. Prefer explicit JOINs." ++ nl ++
  "- If the question is ambiguous, ask for clarification instead of guessing." ++ nl ++
  "- Return STRICT JSON only (no markdown):" ++ nl ++
  "  {" ++ dquote ++ "type" ++ dquote ++ ":" ++ dquote ++ "sql" ++ dquote ++ ","
        ++ dquote ++ "sql" ++ dquote ++ ":" ++ dquote ++ "..." ++ dquote ++ ","
        ++ dquote ++ "params" ++ dquote ++ ":{}}  or  {"
        ++ dquote ++ "type" ++ dquote ++ ":" ++ dquote ++ "clarify" ++ dquote ++ ","
        ++ dquote ++ "question" ++ dquote ++ ":" ++ dquote ++ "..." ++ dquote ++ "}" ++ nl ++
  "Schema:" ++ nl.

Definition repair_section (last_error : string) : string :=
  if String.eqb last_error EmptyString then EmptyString
  else nl ++ "Previous SQL failed: " ++ last_error ++ nl ++ "Fix it." ++ nl.

Definition _sql_prompt (question schema last_error : string) : string :=
  strip (Textwrap.dedent
    (nl ++ sql_prompt_head ++ nl ++ sql_prompt_rules ++ schema ++ nl ++
     "User question: " ++ question ++ repair_section last_error ++ nl)).

Definition _answer_prompt {J : JsonLib} (question sql : string)
    (columns : list string) (rows : list (list value)) : string :=
  strip (Textwrap.dedent
    (nl ++ "You are a helpful assistant. Write a concise, human-readable answer grounded ONLY in the SQL result." ++ nl ++
     "If empty, say so and suggest a likely reason." ++ nl ++
     "User question: " ++ question ++ nl ++
     "SQL: " ++ sql ++ nl ++
     "Result: " ++ json_dumps (VDict [("columns", VList (map VStr columns));
                                      ("rows", VList (map VList rows))]) ++ nl)).

(** ** Response parser *)

Definition _parse_json {J : JsonLib} (text : string) : string + value :=
  let s := strip text in
  match json_loads s with
  | inr v => inr v
  | inl e =>
      let start := find "{" s in
      let end_ := rfind "}" s in
      if negb (start =? -1) && (start <? end_)
      then json_loads (slice start (end_ + 1) s)
      else inl e
  end.

(** ** The agent

    Every node takes the session state and returns it updated.  The nodes
    run in a small state-and-exception monad over [Sys]: the collaborators'
    world, plus a record of the prompts sent to the model, of the queries
    handed to the database and of the nodes the graph engine entered. *)

Section Agent.

Context {J : JsonLib} {C : Collaborators}.

Record Sys : Type := {
  world : World;
  llm_calls : list string;
  executed : list (string * option value);
  visited : list node_id
}.

Definition M (A : Type) : Type := Sys -> (exn + A) * Sys.

Definition ret {A : Type} (a : A) : M A := fun s => (inr a, s).

Definition raise {A : Type} (e : exn) : M A := fun s => (inl e, s).

Definition bind {A B : Type} (m : M A) (k : A -> M B) : M B :=
  fun s => match m s with
           | (inr a, s') => k a s'
           | (inl e, s') => (inl e, s')
           end.

Notation "x <- m ;; k" := (bind m (fun x => k))
  (at level 61, m at next level, right associativity).

Definition with_world (w : World) (s : Sys) : Sys :=
  {| world := w; llm_calls := llm_calls s; executed := executed s; visited := visited s |}.

(** [llm(prompt)] *)
Definition call_llm (prompt : string) : M string :=
  fun s => let (r, w) := llm prompt (world s) in
           (inr r, {| world := w; llm_calls := llm_calls s ++ [prompt];
                      executed := executed s; visited := visited s |}).

(** [cur.execute(sql, params)] or [cur.execute(sql)], then the fetch of rows
    and column names; a database failure comes back as its text. *)
Definition call_execute (q : string) (params : option value)
  : M (string + (list string * list (list value))) :=
  fun s => let (r, w) := execute q params (world s) in
           (inr r, {| world := w; llm_calls := llm_calls s;
                      executed := executed s ++ [(q, params)]; visited := visited s |}).

Definition call_sqlite_master : M (list (option string)) :=
  fun s => match sqlite_master (world s) with
           | (inr tables, w) => (inr tables, with_world w s)
           | (inl e, w) => (inl (DatabaseError e), with_world w s)
           end.

Definition now_ms : M Z :=
  fun s => let (t, w) := time_ms (world s) in (inr t, with_world w s).

Definition enter (n : node_id) : M unit :=
  fun s => (inr tt, {| world := world s; llm_calls := llm_calls s;
                       executed := executed s; visited := visited s ++ [n] |}).

Definition _trace (state : QAState) (node : string) (data : list (string * value))
  : M QAState :=
  ts <- now_ms ;;
  ret (QAState.set_trace (QAState.trace state ++ [Event.make ts node data]) state).

Definition _schema_text : M string :=
  tables <- call_sqlite_master ;;
  ret (join (nl ++ nl)
         (flat_map (fun row => match row with
                               | Some text =>
                                   if String.eqb text EmptyString then []
                                   else [strip text ++ ";"]
                               | None => []
                               end) tables)).

Variable cfg : AgentConfig.

Definition or_default {A : Type} (o : option A) (d : A) : A :=
  match o with Some a => a | None => d end.

(** [v or {}] *)
Definition or_empty_dict (o : option value) : value :=
  match o with
  | Some v => if truthy v then v else VDict []
  | None => VDict []
  end.

Definition load_schema (state : QAState) : M QAState :=
  text <- _schema_text ;;
  _trace (QAState.set_schema text state) "load_schema" [("chars", VInt (len text))].

(** [state.update(decision="sql", sql="", sql_params={}, last_error=e)] *)
Definition reject (e : string) (state : QAState) : QAState :=
  QAState.set_last_error e
    (QAState.set_sql_params (VDict [])
       (QAState.set_sql EmptyString (QAState.set_decision "sql" state))).

Definition gen_sql (state : QAState) : M QAState :=
  schema <- match QAState.schema state with
            | Some s => ret s
            | None => raise (KeyError "schema")
            end ;;
  raw <- call_llm (_sql_prompt (QAState.question state) schema
                     (or_default (QAState.last_error state) EmptyString)) ;;
  state <- _trace state "llm_raw" [("raw", VStr raw)] ;;
  match _parse_json raw with
  | inl e => ret (reject ("Invalid JSON: " ++ e) state)
  | inr (VDict obj) =>
      if match Dict.get "type" obj with
         | Some ty => eq_str ty "clarify"
         | None => false
         end
      then
        ret (QAState.set_clarification_question
               (or_default (Dict.get "question" obj) (VStr "Can you clarify?"))
               (QAState.set_decision "clarify" state))
      else
        match or_default (Dict.get "sql" obj) (VStr EmptyString) with
        | VStr text =>
            let sql := rstrip_chars ";" (strip text) in
            if negb (startswith "select" (lower sql))
            then ret (reject "Only SELECT allowed." state)
            else
              let sql := if negb (contains " limit " (lower sql))
                         then sql ++ " LIMIT " ++ str_of_int (max_rows cfg)
                         else sql in
              _trace (QAState.set_last_error EmptyString
                        (QAState.set_sql_params (or_empty_dict (Dict.get "params" obj))
                           (QAState.set_sql sql (QAState.set_decision "sql" state))))
                     "gen_sql" [("sql", VStr sql)]
        | _ => raise (AttributeError "sql" "strip")
        end
  | inr _ => raise (AttributeError "obj" "get")
  end.

Definition exec_sql (state : QAState) : M QAState :=
  let sql := or_default (QAState.sql state) EmptyString in
  let params := or_empty_dict (QAState.sql_params state) in
  if String.eqb sql EmptyString
  then
    ret (QAState.set_last_error
           (match QAState.last_error state with
            | Some e => if String.eqb e EmptyString then "No SQL produced." else e
            | None => "No SQL produced."
            end) state)
  else
    r <- call_execute sql (if truthy params then Some params else None) ;;
    match r with
    | inr (columns, rows) =>
        _trace (QAState.set_last_error EmptyString
                  (QAState.set_columns columns (QAState.set_rows rows state)))
               "exec_sql" [("rows", VInt (Z.of_nat (List.length rows)))]
    | inl e =>
        _trace (QAState.set_last_error e
                  (QAState.set_rows [] (QAState.set_columns [] state)))
               "exec_sql_error" [("error", VStr e)]
    end.

Definition failure_answer (last_error : string) : string :=
  "Couldn't run a valid SQL query." ++ nl ++ "Error: " ++ last_error ++ nl ++
  "Try rephrasing or adding missing details.".

Definition answer (state : QAState) : M QAState :=
  state <-
    (if match QAState.decision state with
        | Some d => String.eqb d "clarify"
        | None => false
        end
     then
       ret (QAState.set_answer
              (or_default (QAState.clarification_question state)
                          (VStr "Can you clarify?")) state)
     else if match QAState.last_error state with
             | Some e => negb (String.eqb e EmptyString)
             | None => false
             end
     then
       ret (QAState.set_answer
              (VStr (failure_answer (or_default (QAState.last_error state) EmptyString)))
              state)
     else
       sql <- match QAState.sql state with
              | Some q => ret q
              | None => raise (KeyError "sql")
              end ;;
       text <- call_llm (_answer_prompt (QAState.question state) sql
                           (or_default (QAState.columns state) [])
                           (or_default (QAState.rows state) [])) ;;
       ret (QAState.set_answer (VStr (strip text)) state)) ;;
  _trace state "answer" [("answer", or_default (QAState.answer state) VNone)].

Definition inc_attempts (state : QAState) : M QAState :=
  let n := or_default (QAState.attempts state) 0 + 1 in
  _trace (QAState.set_attempts n state) "attempt" [("n", VInt n)].

Definition should_retry (state : QAState) : route :=
  if negb (match QAState.decision state with
           | Some d => String.eqb d "clarify"
           | None => false
           end)
     && match QAState.last_error state with
        | Some e => negb (String.eqb e EmptyString)
        | None => false
        end
  then
    if or_default (QAState.attempts state) 0 <? max_attempts cfg
    then retry else no_retry
  else no_retry.

(** *** The graph

    [build_app] wires START to [load_schema], then [attempt], [gen_sql],
    [exec_sql], a conditional edge on [should_retry] back to [attempt] or on
    to [answer], and [answer] to END.  The engine enters one node per step
    and stops with [GraphRecursionError] when [budget] steps are used up
    before END. *)

Definition run_node (n : node_id) : QAState -> M QAState :=
  match n with
  | N_load_schema => load_schema
  | N_attempt => inc_attempts
  | N_gen_sql => gen_sql
  | N_exec_sql => exec_sql
  | N_answer => answer
  end.

(** The edge leaving [n]; [None] is END. *)
Definition next_node (n : node_id) (state : QAState) : option node_id :=
  match n with
  | N_load_schema => Some N_attempt
  | N_attempt => Some N_gen_sql
  | N_gen_sql => Some N_exec_sql
  | N_exec_sql => match should_retry state with
                  | retry => Some N_attempt
                  | no_retry => Some N_answer
                  end
  | N_answer => None
  end.

Fixpoint run_from (budget : nat) (n : node_id) (state : QAState) : M QAState :=
  match budget with
  | O => raise GraphRecursionError
  | S budget' =>
      _ <- enter n ;;
      state <- run_node n state ;;
      match next_node n state with
      | None => ret state
      | Some m => run_from budget' m state
      end
  end.

Definition invoke (budget : nat) (state : QAState) : M QAState :=
  run_from budget N_load_schema state.

Definition run_question (budget : nat) (question : string)
  : M (value * list Event.t * QAState) :=
  out <- invoke budget (QAState.initial question) ;;
  ret (or_default (QAState.answer out) (VStr EmptyString), QAState.trace out, out).

Definition start (w : World) : Sys :=
  {| world := w; llm_calls := []; executed := []; visited := [] |}.

End Agent.

(** ** A reference JSON codec

    An instance of [JsonLib] that follows CPython's decoder (scanner,
    string, object and array readers, error texts and positions) on
    documents whose decoded strings stay inside the modelled alphabet; a
    [\u] escape above [00FF] is reported as an error here.  The
    interpreter's resource limits are not modelled. *)

Module RefJson.
Import PyStr.

(** A decoding error: its message and the rest of the document from the
    position Python reports. *)
Inductive failure : Type := Failure (msg : string) (rest : string).

Definition is_ws (c : ascii) : bool :=
  Ascii.eqb c " "%char || Ascii.eqb c "009"%char ||
  Ascii.eqb c "010"%char || Ascii.eqb c "013"%char.

Definition skip_ws (s : string) : string := lstrip_by is_ws s.

Definition is_digit (c : ascii) : bool := between 48 57 (code c).

Definition hex_value (c : ascii) : option nat :=
  let n := code c in
  if between 48 57 n then Some (n - 48)%nat
  else if between 97 102 n then Some (n - 87)%nat
  else if between 65 70 n then Some (n - 55)%nat
  else None.

Definition backslash : ascii := "092"%char.
Definition quote : ascii := "034"%char.

(** The character a one-letter escape stands for. *)
Definition unescape (c : ascii) : option ascii :=
  if Ascii.eqb c quote then Some quote
  else if Ascii.eqb c backslash then Some backslash
  else if Ascii.eqb c "/"%char then Some "/"%char
  else if Ascii.eqb c "b"%char then Some "008"%char
  else if Ascii.eqb c "f"%char then Some "012"%char
  else if Ascii.eqb c "n"%char then Some "010"%char
  else if Ascii.eqb c "r"%char then Some "013"%char
  else if Ascii.eqb c "t"%char then Some "009"%char
  else None.

Definition hex4 (a b c d : ascii) : option nat :=
  match hex_value a, hex_value b, hex_value c, hex_value d with
  | Some x, Some y, Some z, Some w => Some (((x * 16 + y) * 16 + z) * 16 + w)%nat
  | _, _, _, _ => None
  end.

(** [scanstring]: [s] is the text after the opening quote, [begin] the text
    from the opening quote. *)
Fixpoint scanstring (begin s : string) : failure + (string * string) :=
  match s with
  | EmptyString => inl (Failure "Unterminated string starting at" begin)
  | String c r =>
      if Ascii.eqb c quote then inr (EmptyString, r)
      else if Ascii.eqb c backslash then
        match r with
        | EmptyString => inl (Failure "Unterminated string starting at" begin)
        | String e r2 =>
            if Ascii.eqb e "u"%char then
              match r2 with
              | String h1 (String h2 (String h3 (String h4 r6))) =>
                  match hex4 h1 h2 h3 h4 with
                  | Some n =>
                      if (n <? 256)%nat then
                        match scanstring begin r6 with
                        | inr (t, rest) => inr (String (ascii_of_nat n) t, rest)
                        | inl f => inl f
                        end
                      else inl (Failure "Code point outside the modelled alphabet" r)
                  | None => inl (Failure "Invalid \uXXXX escape" r)
                  end
              | _ => inl (Failure "Invalid \uXXXX escape" r)
              end
            else
              match unescape e with
              | Some ch =>
                  match scanstring begin r2 with
                  | inr (t, rest) => inr (String ch t, rest)
                  | inl f => inl f
                  end
              | None => inl (Failure "Invalid \escape" s)
              end
        end
      else if (code c <=? 31)%nat then inl (Failure "Invalid control character at" s)
      else
        match scanstring begin r with
        | inr (t, rest) => inr (String c t, rest)
        | inl f => inl f
        end
  end.

Fixpoint take_digits (s : string) : string * string :=
  match s with
  | EmptyString => (EmptyString, EmptyString)
  | String c r =>
      if is_digit c then let (d, rest) := take_digits r in (String c d, rest)
      else (EmptyString, s)
  end.

Fixpoint digits_value (acc : Z) (d : string) : Z :=
  match d with
  | EmptyString => acc
  | String c r => digits_value (acc * 10 + Z.of_nat (code c - 48)) r
  end.

(** The integer part of a number: [0], or a non-zero digit and more digits. *)
Definition int_part (s : string) : option (string * string) :=
  match s with
  | EmptyString => None
  | String c r =>
      if Ascii.eqb c "0"%char then Some (String c EmptyString, r)
      else if is_digit c then let (d, rest) := take_digits r in Some (String c d, rest)
      else None
  end.

(** A fraction: a point followed by at least one digit. *)
Definition frac_part (s : string) : option (string * string) :=
  match s with
  | String c ((String d _) as r) =>
      if Ascii.eqb c "."%char && is_digit d then Some (take_digits r) else None
  | _ => None
  end.

(** An exponent: [e] or [E], an optional sign, at least one digit. *)
Definition exp_part (s : string) : option (Z * string) :=
  match s with
  | String c r =>
      if Ascii.eqb c "e"%char || Ascii.eqb c "E"%char then
        let (negative, r1) :=
          match r with
          | String sg r' =>
              if Ascii.eqb sg "-"%char then (true, r')
              else if Ascii.eqb sg "+"%char then (false, r')
              else (false, r)
          | EmptyString => (false, r)
          end in
        match take_digits r1 with
        | (EmptyString, _) => None
        | (d, rest) =>
            Some (if negative then - digits_value 0 d else digits_value 0 d, rest)
        end
      else None
  | EmptyString => None
  end.

Definition match_number (s : string) : option (value * string) :=
  let (negative, body) :=
    match s with
    | String c r => if Ascii.eqb c "-"%char then (true, r) else (false, s)
    | EmptyString => (false, s)
    end in
  match int_part body with
  | None => None
  | Some (i, r1) =>
      let sign := fun z : Z => if negative then - z else z in
      match frac_part r1, (match frac_part r1 with
                           | Some (_, r2) => exp_part r2
                           | None => exp_part r1
                           end) with
      | None, None => Some (VInt (sign (digits_value 0 i)), r1)
      | Some (f, r2), None =>
          Some (VFloat (FDec (sign (digits_value 0 (i ++ f)))
                             (- Z.of_nat (String.length f))), r2)
      | None, Some (e, r3) => Some (VFloat (FDec (sign (digits_value 0 i)) e), r3)
      | Some (f, _), Some (e, r3) =>
          Some (VFloat (FDec (sign (digits_value 0 (i ++ f)))
                             (e - Z.of_nat (String.length f))), r3)
      end
  end.

Definition drop (n : nat) (s : string) : string :=
  String.substring n (String.length s - n) s.

Definition keyword (s : string) : option (value * string) :=
  if startswith "null" s then Some (VNone, drop 4 s)
  else if startswith "true" s then Some (VBool true, drop 4 s)
  else if startswith "false" s then Some (VBool false, drop 5 s)
  else if startswith "NaN" s then Some (VFloat FNaN, drop 3 s)
  else if startswith "Infinity" s then Some (VFloat (FInf false), drop 8 s)
  else if startswith "-Infinity" s then Some (VFloat (FInf true), drop 9 s)
  else None.

Fixpoint scan_once (fuel : nat) (s : string) : failure + (value * string) :=
  match fuel with
  | O => inl (Failure "maximum recursion depth exceeded" s)
  | S fuel' =>
      match s with
      | EmptyString => inl (Failure "Expecting value" s)
      | String c r =>
          if Ascii.eqb c quote then
            match scanstring s r with
            | inr (t, rest) => inr (VStr t, rest)
            | inl f => inl f
            end
          else if Ascii.eqb c "{"%char then
            match skip_ws r with
            | String c1 r1 as body =>
                if Ascii.eqb c1 "}"%char then inr (VDict [], r1)
                else parse_pairs fuel' [] body
            | EmptyString => parse_pairs fuel' [] EmptyString
            end
          else if Ascii.eqb c "["%char then
            match skip_ws r with
            | String c1 r1 as body =>
                if Ascii.eqb c1 "]"%char then inr (VList [], r1)
                else parse_items fuel' [] body
            | EmptyString => parse_items fuel' [] EmptyString
            end
          else
            match keyword s with
            | Some found => inr found
            | None =>
                match match_number s with
                | Some found => inr found
                | None => inl (Failure "Expecting value" s)
                end
            end
      end
  end

with parse_pairs (fuel : nat) (acc : Dict.t) (s : string) : failure + (value * string) :=
  match fuel with
  | O => inl (Failure "maximum recursion depth exceeded" s)
  | S fuel' =>
      match s with
      | String c r =>
          if Ascii.eqb c quote then
            match scanstring s r with
            | inl f => inl f
            | inr (key, r1) =>
                match skip_ws r1 with
                | String c2 r3 as r2 =>
                    if Ascii.eqb c2 ":"%char then
                      match scan_once fuel' (skip_ws r3) with
                      | inl f => inl f
                      | inr (v, r5) =>
                          match skip_ws r5 with
                          | String c6 r7 as r6 =>
                              if Ascii.eqb c6 "}"%char then inr (VDict (Dict.set key v acc), r7)
                              else if Ascii.eqb c6 ","%char
                              then parse_pairs fuel' (Dict.set key v acc) (skip_ws r7)
                              else inl (Failure "Expecting ',' delimiter" r6)
                          | EmptyString => inl (Failure "Expecting ',' delimiter" EmptyString)
                          end
                      end
                    else inl (Failure "Expecting ':' delimiter" r2)
                | EmptyString => inl (Failure "Expecting ':' delimiter" EmptyString)
                end
            end
          else inl (Failure "Expecting property name enclosed in double quotes" s)
      | EmptyString =>
          inl (Failure "Expecting property name enclosed in double quotes" s)
      end
  end

with parse_items (fuel : nat) (acc : list value) (s : string) : failure + (value * string) :=
  match fuel with
  | O => inl (Failure "maximum recursion depth exceeded" s)
  | S fuel' =>
      match scan_once fuel' s with
      | inl f => inl f
      | inr (v, r1) =>
          match skip_ws r1 with
          | String c2 r3 as r2 =>
              if Ascii.eqb c2 "]"%char then inr (VList (acc ++ [v]), r3)
              else if Ascii.eqb c2 ","%char
              then parse_items fuel' (acc ++ [v]) (skip_ws r3)
              else inl (Failure "Expecting ',' delimiter" r2)
          | EmptyString => inl (Failure "Expecting ',' delimiter" EmptyString)
          end
      end
  end.

(** The text of a [JSONDecodeError]: message, line, column and offset. *)
Definition error_text (doc : string) (f : failure) : string :=
  match f with
  | Failure msg rest =>
      let pos := (String.length doc - String.length rest)%nat in
      let before := split_nl (String.substring 0 pos doc) in
      msg ++ ": line " ++ str_of_int (Z.of_nat (List.length before)) ++
      " column " ++ str_of_int (Z.of_nat (String.length (last before EmptyString)) + 1) ++
      " (char " ++ str_of_int (Z.of_nat pos) ++ ")"
  end.

Definition loads (doc : string) : string + value :=
  match scan_once (S (String.length doc)) (skip_ws doc) with
  | inl f => inl (error_text doc f)
  | inr (v, rest) =>
      match skip_ws rest with
      | EmptyString => inr v
      | extra => inl (error_text doc (Failure "Extra data" extra))
      end
  end.

End RefJson.

Module RefJsonDumps.
Import PyStr.

(** One character of a string literal written with [ensure_ascii=False]. *)
Definition hex_digit (n : nat) : ascii :=
  if (n <? 10)%nat then ascii_of_nat (48 + n) else ascii_of_nat (87 + n).

Definition escape_char (c : ascii) : string :=
  let one := fun x : ascii => String RefJson.backslash (String x EmptyString) in
  if Ascii.eqb c RefJson.quote then one RefJson.quote
  else if Ascii.eqb c RefJson.backslash then one RefJson.backslash
  else if Ascii.eqb c "010"%char then one "n"%char
  else if Ascii.eqb c "013"%char then one "r"%char
  else if Ascii.eqb c "009"%char then one "t"%char
  else if Ascii.eqb c "008"%char then one "b"%char
  else if Ascii.eqb c "012"%char then one "f"%char
  else if (code c <? 32)%nat
  then String RefJson.backslash
         ("u00" ++ String (hex_digit (code c / 16)) (String (hex_digit (code c mod 16)) EmptyString))
  else String c EmptyString.

Fixpoint escape (s : string) : string :=
  match s with
  | EmptyString => EmptyString
  | String c r => escape_char c ++ escape r
  end.

Definition quoted (s : string) : string := dquote ++ escape s ++ dquote.

Fixpoint zeros (n : nat) : string :=
  match n with
  | O => EmptyString
  | S k => String "0"%char (zeros k)
  end.

(** A decimal written positionally, as [repr] prints floats of moderate
    size. *)
Definition float_text (f : pyfloat) : string :=
  match f with
  | FNaN => "NaN"
  | FInf false => "Infinity"
  | FInf true => "-Infinity"
  | FDec m e =>
      let sign := if m <? 0 then "-" else EmptyString in
      let a := Z.abs m in
      if 0 <=? e then sign ++ str_of_int (a * 10 ^ e) ++ ".0"
      else
        let p := 10 ^ (- e) in
        let frac := str_of_int (a mod p) in
        let padded := zeros (Z.to_nat (- e) - String.length frac) ++ frac in
        let trimmed := rstrip_chars "0" padded in
        sign ++ str_of_int (a / p) ++ "." ++
        (if String.eqb trimmed EmptyString then "0" else trimmed)
  end.

Fixpoint dumps (v : value) : string :=
  match v with
  | VNone => "null"
  | VBool true => "true"
  | VBool false => "false"
  | VInt n => str_of_int n
  | VFloat f => float_text f
  | VStr s => quoted s
  | VList items => "[" ++ join ", " (map dumps items) ++ "]"
  | VDict pairs =>
      "{" ++ join ", " (map (fun p => quoted (fst p) ++ ": " ++ dumps (snd p)) pairs) ++ "}"
  end.

End RefJsonDumps.

#[export] Instance RefJsonLib : JsonLib := {|
  json_loads := RefJson.loads;
  json_dumps := RefJsonDumps.dumps
|}.

(** ** Scripted collaborators

    The stand-ins of [test_agent.py]: [FakeLLM] answers generation prompts
    from a queue of replies (the last one repeats) and every other prompt
    with a fixed answer; the database is a table from query text to outcome;
    the clock advances by one millisecond per reading. *)

Module Scripted.
Import PyStr.

Record script : Type := {
  queue : list string;
  final_answer : string;
  sql_calls : list string;
  tables : string + list (option string);
  database : string -> option value -> string + (list string * list (list value));
  clock : Z
}.

Definition fake_llm (prompt : string) (w : script) : string * script :=
  if contains "Convert the user question" prompt then
    let reply := match queue w with
                 | r :: _ => r
                 | [] => EmptyString
                 end in
    let rest := match queue w with
                | _ :: (_ :: _) as tl => tl
                | q => q
                end in
    (reply, {| queue := rest; final_answer := final_answer w;
               sql_calls := sql_calls w ++ [prompt]; tables := tables w;
               database := database w; clock := clock w |})
  else (final_answer w, w).

#[export] Instance collaborators : Collaborators := {|
  World := script;
  llm := fake_llm;
  sqlite_master := fun w => (tables w, w);
  execute := fun q params w => (database w q params, w);
  time_ms := fun w =>
    (clock w, {| queue := queue w; final_answer := final_answer w;
                 sql_calls := sql_calls w; tables := tables w;
                 database := database w; clock := clock w + 1 |})
|}.

(** [json.dumps] of the two reply shapes, as the test helpers build them
    (for text that needs no escaping). *)
Definition sql_resp (q : string) : string :=
  "{" ++ dquote ++ "type" ++ dquote ++ ": " ++ dquote ++ "sql" ++ dquote ++ ", " ++
  dquote ++ "sql" ++ dquote ++ ": " ++ dquote ++ q ++ dquote ++ ", " ++
  dquote ++ "params" ++ dquote ++ ": {}}".

Definition clarify_resp (q : string) : string :=
  "{" ++ dquote ++ "type" ++ dquote ++ ": " ++ dquote ++ "clarify" ++ dquote ++ ", " ++
  dquote ++ "question" ++ dquote ++ ": " ++ dquote ++ q ++ dquote ++ "}".

(** A database with one table, [teachers]; any query naming another table
    fails the way SQLite does. *)
Definition teachers_db (q : string) (_ : option value)
  : string + (list string * list (list value)) :=
  if contains "fake_table" q then inl "no such table: fake_table"
  else inr (["name"], [[VStr "Dr. Alice Nguyen"]; [VStr "Dr. Brian Cohen"]]).

Definition teachers_world (replies : list string) : script :=
  {| queue := replies; final_answer := "Answer."; sql_calls := [];
     tables := inr [Some "CREATE TABLE teachers (teacher_id INTEGER PRIMARY KEY, name TEXT)"];
     database := teachers_db; clock := 1000 |}.

End Scripted.

(** ** Vocabulary of the properties *)

Import PyStr.

(** The decision is "clarify". *)
Definition is_clarify (state : QAState) : bool :=
  match QAState.decision state with
  | Some d => String.eqb d "clarify"
  | None => false
  end.

(** No usable query is stored: the key is missing or holds the empty text. *)
Definition no_query (state : QAState) : Prop :=
  QAState.sql state = None \/ QAState.sql state = Some EmptyString.

(** No error is recorded: the key is missing or holds the empty text. *)
Definition no_error (state : QAState) : Prop :=
  QAState.last_error state = None \/ QAState.last_error state = Some EmptyString.

(** [word] occurs in [text] in some letter case. *)
Definition occurs_ignoring_case (word text : string) : Prop :=
  exists before found after,
    text = before ++ found ++ after /\ lower found = word.

(** How often the graph engine entered node [n]. *)
Definition entries (n : node_id) (log : list node_id) : Z :=
  Z.of_nat (List.length (filter (node_id_eqb n) log)).

(** A line on which [str.isspace] holds. *)
Fixpoint all_space (l : string) : bool :=
  match l with
  | EmptyString => true
  | String c r => isspace c && all_space r
  end.

Definition space_line (l : string) : bool :=
  match l with
  | EmptyString => false
  | _ => all_space l
  end.

(** No line of [text] after its first is made only of whitespace. *)
Definition later_lines_visible (text : string) : Prop :=
  Forall (fun l => space_line l = false) (tl (split_nl text)).

Fixpoint all_json_ws (s : string) : bool :=
  match s with
  | EmptyString => true
  | String c r => RefJson.is_ws c && all_json_ws r
  end.

(** The grammar fact about JSON the parser relies on: a document that
    decodes to an object is, up to JSON whitespace around it, a text from an
    opening brace to a closing brace. *)
Definition objects_are_braced (J : JsonLib) : Prop :=
  forall (doc : string) (obj : Dict.t),
    json_loads doc = inr (VDict obj) ->
    exists before body after,
      doc = before ++ "{" ++ body ++ "}" ++ after /\
      all_json_ws before = true /\ all_json_ws after = true.

(** The span [_parse_json] falls back to: first opening brace to last
    closing brace. *)
Definition has_brace_span (s : string) : bool :=
  negb (find "{" s =? -1) && (find "{" s <? rfind "}" s).

Definition brace_span (s : string) : string :=
  slice (find "{" s) (rfind "}" s + 1) s.

(** The node names of a trace, in order. *)
Definition nodes_of (trace : list Event.t) : list string := map Event.node trace.

(** The parameters [exec_sql] passes along with the query, if any. *)
Definition passed_params (state : QAState) : option value :=
  if truthy (or_empty_dict (QAState.sql_params state))
  then Some (or_empty_dict (QAState.sql_params state))
  else None.

(** The part of the generation prompt that does not depend on the error:
    rules, schema and question, after [dedent]. *)
Definition prompt_body (question schema : string) : string :=
  Textwrap.normalize
    (sql_prompt_rules ++ schema ++ nl ++ "User question: " ++ question).

(** *** Vocabulary of the supporting lemmas *)

(** The one-character text. *)
Definition one (c : ascii) : string := String c EmptyString.

(** The text holds no line break. *)
Fixpoint no_newline (s : string) : bool :=
  match s with
  | EmptyString => true
  | String c r => negb (Ascii.eqb c "010"%char) && no_newline r
  end.

(** The head line without its first and last character. *)
Definition head_middle : string :=
  String.substring 1 (String.length sql_prompt_head - 2) sql_prompt_head.

(** [rest] is what is left of [s] after reading some of it. *)
Definition suffix_of (rest s : string) : Prop := exists c, s = c ++ rest.

(** [rest] is what is left of [s] after reading up to a closing brace. *)
Definition closes (rest s : string) : Prop :=
  exists body, s = body ++ String "}"%char rest.

(** A decoded value other than an object. *)
Definition non_object (v : value) : Prop := forall d, v <> VDict d.

(** What the counter must satisfy on entering a node. *)
Definition may_enter (cfg : AgentConfig) (n : node_id) (a : Z) : Prop :=
  match n with
  | N_load_schema | N_attempt => a + 1 <= max_attempts cfg
  | _ => a <= max_attempts cfg
  end.

(** Entries of node [m] still possible from node [n] with counter [a]. *)
Definition room (cfg : AgentConfig) (m n : node_id) (a : Z) : Z :=
  match n, m with
  | N_answer, _ => 0
  | N_gen_sql, (N_gen_sql | N_exec_sql) => max_attempts cfg - a + 1
  | N_exec_sql, N_exec_sql => max_attempts cfg - a + 1
  | _, _ => max_attempts cfg - a
  end.

(** Steps that suffice to reach END from node [n] with counter [a]. *)
Definition steps_to_end (cfg : AgentConfig) (n : node_id) (a : Z) : Z :=
  match n with
  | N_load_schema => 3 * (max_attempts cfg - a) + 2
  | N_attempt => 3 * (max_attempts cfg - a) + 1
  | N_gen_sql => 3 * (max_attempts cfg - a) + 3
  | N_exec_sql => 3 * (max_attempts cfg - a) + 2
  | N_answer => 1
  end.

Definition counted (m : node_id) : Prop :=
  m = N_attempt \/ m = N_gen_sql \/ m = N_exec_sql.


(** ** Scenarios

    Concrete sessions against the scripted collaborators and the reference
    codec, after the cases of [test_agent.py]. *)

Module Scenario.
Import PyStr Scripted.

Definition teachers_schema : string :=
  "CREATE TABLE teachers (teacher_id INTEGER PRIMARY KEY, name TEXT);".

(** A state as [gen_sql] first sees it: schema loaded, first attempt
    counted. *)
Definition ready : QAState :=
  QAState.set_attempts 1 (QAState.set_schema teachers_schema (QAState.initial "q")).

(** A state whose query is about to fail in the database. *)
Definition failing_query : string := "SELECT * FROM fake_table LIMIT 50".

Definition about_to_fail : QAState :=
  QAState.set_last_error EmptyString
    (QAState.set_sql_params (VDict [])
       (QAState.set_sql failing_query (QAState.set_decision "sql" ready))).

(** A state after a failed cycle that produced no query. *)
Definition rejected : QAState := reject "Only SELECT allowed." ready.

(** A state that asked for clarification after an earlier failure. *)
Definition clarify_after_failure : QAState :=
  QAState.set_clarification_question (VStr "Which semester?")
    (QAState.set_decision "clarify" rejected).

Definition delete_then_select : list string :=
  [sql_resp "DELETE FROM teachers"; sql_resp "SELECT name FROM teachers"].

Definition fail_then_clarify : list string :=
  [sql_resp "SELECT * FROM fake_table"; clarify_resp "Which?"].

Definition clarify_only : list string := [clarify_resp "Which semester?"].

Definition select_only : list string := [sql_resp "SELECT name FROM teachers"].

(** A session about to start against the scripted collaborators. *)
Definition session (replies : list string) : @Sys collaborators :=
  @start collaborators (teachers_world replies).

Definition ten_rows : AgentConfig := {| max_attempts := 2; max_rows := 10 |}.

(** An error text with a line made of one space. *)
Definition error_with_blank_line : string := "a" ++ nl ++ " " ++ nl ++ "b".

(** A reply wrapped in prose, and the bare reply. *)
Definition bare_reply : string := clarify_resp "Which semester?".
Definition wrapped_reply : string := "Sure! " ++ bare_reply ++ " done.".

End Scenario.

(** ** Vocabulary of the further properties *)

Import PyStr.

(** The system once the engine has logged its entry into node [n]. *)
Definition entered {C : Collaborators} (n : node_id) (sys : Sys) : Sys :=
  {| world := world sys; llm_calls := llm_calls sys; executed := executed sys;
     visited := (visited sys ++ [n])%list |}.

(** A query the validator lets through: it starts with "select" and carries
    the word "limit" between two spaces, both in any letter case. *)
Definition safe_query (q : string) : Prop :=
  startswith "select" (lower q) = true /\ contains " limit " (lower q) = true.

(** The stored query, if any, is empty or safe. *)
Definition stored_query_safe (state : QAState) : Prop :=
  match QAState.sql state with
  | None => True
  | Some q => q = EmptyString \/ safe_query q
  end.

(** Every query in a log of database calls is safe. *)
Definition all_safe (log : list (string * option value)) : Prop :=
  Forall (fun call => safe_query (fst call)) log.

(** How many events of a trace carry the node name [name]. *)
Definition event_count (name : string) (trace : list Event.t) : Z :=
  Z.of_nat (List.length (filter (fun e => String.eqb (Event.node e) name) trace)).

(** The events [exec_sql] records: one per execution, success or error. *)
Definition execution_events (trace : list Event.t) : Z :=
  event_count "exec_sql" trace + event_count "exec_sql_error" trace.

(** The text [_schema_text] makes of the catalog rows. *)
Definition schema_rows (tables : list (option string)) : string :=
  join (nl ++ nl)
    (flat_map (fun row => match row with
                          | Some text =>
                              if String.eqb text EmptyString then []
                              else [strip text ++ ";"]
                          | None => []
                          end) tables).

(** A decoded reply [gen_sql] cannot read: not an object, or an object that
    is not a clarify reply and whose "sql" entry is not text. *)
Definition unusable_reply (v : value) : bool :=
  match v with
  | VDict obj =>
      negb (match Dict.get "type" obj with
            | Some ty => eq_str ty "clarify"
            | None => false
            end)
      && match or_default (Dict.get "sql" obj) (VStr EmptyString) with
         | VStr _ => false
         | _ => true
         end
  | _ => true
  end.

(** The last error is recorded and not empty. *)
Definition has_error (state : QAState) : bool :=
  match QAState.last_error state with
  | Some e => negb (String.eqb e EmptyString)
  | None => false
  end.

(** The query [gen_sql] stores for the text of a reply's "sql" entry that
    passes the SELECT test: stripped, trailing ";" removed, the row limit
    appended when no " limit " is found. *)
Definition stored_query (cfg : AgentConfig) (text : string) : string :=
  let sql := rstrip_chars ";" (strip text) in
  if negb (contains " limit " (lower sql))
  then sql ++ " LIMIT " ++ str_of_int (max_rows cfg)
  else sql.

(** The parameters that reach the database for a reply: its "params" entry
    when that is truthy, none otherwise. *)
Definition reply_params (obj : list (string * value)) : option value :=
  match Dict.get "params" obj with
  | Some v => if truthy v then Some v else None
  | None => None
  end.

(** The reply object is not a clarify reply. *)
Definition wants_query (obj : list (string * value)) : bool :=
  negb (match Dict.get "type" obj with
        | Some ty => eq_str ty "clarify"
        | None => false
        end).

(** Text that [json.dumps] writes between quotes as it is: printable ASCII
    without the quote and the backslash. *)
Definition plain_char (c : ascii) : bool :=
  negb (Ascii.eqb c RefJson.quote) && negb (Ascii.eqb c RefJson.backslash) &&
  (32 <=? code c)%nat && (code c <? 127)%nat.

Fixpoint plain_text (s : string) : bool :=
  match s with
  | EmptyString => true
  | String c r => plain_char c && plain_text r
  end.

(** The objects the test helpers serialise. *)
Definition sql_reply (q : string) : value :=
  VDict [("type", VStr "sql"); ("sql", VStr q); ("params", VDict [])].

Definition clarify_reply (q : string) : value :=
  VDict [("type", VStr "clarify"); ("question", VStr q)].

(** The rules of the generation prompt without the line break that ends
    them. *)
Definition sql_prompt_rules_block : string :=
  String.substring 0 (String.length sql_prompt_rules - 1) sql_prompt_rules.

Definition answer_prompt_head : string :=
  "You are a helpful assistant. Write a concise, human-readable answer grounded ONLY in the SQL result.".

(** *** Invariants of a run

    What holds on entering a node ([at_entry]), wherever a run stops
    ([at_stop]) and at END ([at_end]), for the properties proved along the
    run. *)

Module Safety.
Definition at_entry {C : Collaborators} (_ : node_id) (state : QAState) (sys : Sys) : Prop :=
  stored_query_safe state /\ all_safe (executed sys).
Definition at_stop {C : Collaborators} (sys : Sys) : Prop := all_safe (executed sys).
Definition at_end {C : Collaborators} (_ : QAState) (_ : Sys) : Prop := True.
End Safety.

Module Counting.
Definition holds {C : Collaborators} (state : QAState) (sys : Sys) : Prop :=
  QAState.attempts state = Some (entries N_attempt (visited sys)) /\
  event_count "attempt" (QAState.trace state) = entries N_attempt (visited sys) /\
  execution_events (QAState.trace state) = Z.of_nat (List.length (executed sys)).
Definition at_entry {C : Collaborators} (_ : node_id) (state : QAState) (sys : Sys) : Prop :=
  holds state sys.
Definition at_stop {C : Collaborators} (_ : Sys) : Prop := True.
Definition at_end {C : Collaborators} (state : QAState) (sys : Sys) : Prop :=
  holds state sys.
End Counting.

Module Calls.
Definition at_entry {C : Collaborators} (_ : node_id) (_ : QAState) (sys : Sys) : Prop :=
  entries N_answer (visited sys) = 0 /\
  Z.of_nat (List.length (llm_calls sys)) <= entries N_gen_sql (visited sys) /\
  Z.of_nat (List.length (executed sys)) <= entries N_exec_sql (visited sys).
Definition at_stop {C : Collaborators} (sys : Sys) : Prop :=
  Z.of_nat (List.length (llm_calls sys)) <= entries N_gen_sql (visited sys) + 1 /\
  Z.of_nat (List.length (executed sys)) <= entries N_exec_sql (visited sys).
Definition at_end {C : Collaborators} (_ : QAState) (_ : Sys) : Prop := True.
End Calls.

(** *** Further scenarios *)

Module MoreScenarios.
Import PyStr Scripted Scenario.

(** A database whose catalog cannot be read. *)
Definition locked_world : script :=
  {| queue := select_only; final_answer := "Answer."; sql_calls := [];
     tables := inl "database is locked";
     database := teachers_db; clock := 1000 |}.

(** A reply that wraps the object in a list. *)
Definition listed_reply : string := "[" ++ sql_resp "SELECT name FROM teachers" ++ "]".

(** A state whose query is about to succeed. *)
Definition about_to_succeed : QAState :=
  QAState.set_last_error EmptyString
    (QAState.set_sql_params (VDict [])
       (QAState.set_sql "SELECT name FROM teachers LIMIT 50"
          (QAState.set_decision "sql" ready))).

Definition garbage_only : list string := ["not json at all"].

(** The scripted world after one reading of the clock, and after one call
    of the model. *)
Definition tick (w : script) : script := snd (@time_ms collaborators w).
Definition told (prompt : string) (w : script) : script := snd (fake_llm prompt w).

Definition teachers_catalog : list (option string) :=
  [Some "CREATE TABLE teachers (teacher_id INTEGER PRIMARY KEY, name TEXT)"].

Definition two_teachers : list (list value) :=
  [[VStr "Dr. Alice Nguyen"]; [VStr "Dr. Brian Cohen"]].

End MoreScenarios.

Module Shape.
Definition starts_with_schema (trace : list Event.t) : Prop :=
  exists first rest, trace = first :: rest /\ Event.node first = "load_schema".
Definition at_entry {C : Collaborators} (n : node_id) (state : QAState) (_ : Sys) : Prop :=
  match n with
  | N_load_schema => QAState.trace state = []
  | _ => starts_with_schema (QAState.trace state)
  end.
Definition at_stop {C : Collaborators} (_ : Sys) : Prop := True.
Definition at_end {C : Collaborators} (state : QAState) (_ : Sys) : Prop :=
  exists first middle ts a,
    QAState.trace state =
      first :: (middle ++ [Event.make ts "answer" [("answer", a)]])%list /\
    Event.node first = "load_schema" /\
    QAState.answer state = Some a.
End Shape.

Module Kept.
Definition at_entry {C : Collaborators} (question : string) (w : World)
    (tables : list (option string)) (n : node_id) (state : QAState) (sys : Sys) : Prop :=
  QAState.question state = question /\
  match n with
  | N_load_schema => world sys = w
  | _ => QAState.schema state = Some (schema_rows tables)
  end.
Definition at_stop {C : Collaborators} (_ : Sys) : Prop := True.
Definition at_end {C : Collaborators} (question : string)
    (tables : list (option string)) (state : QAState) (_ : Sys) : Prop :=
  QAState.question state = question /\
  QAState.schema state = Some (schema_rows tables).
End Kept.

Module Verdict.
Definition exhausted (cfg : AgentConfig) (state : QAState) : Prop :=
  is_clarify state = false -> has_error state = true ->
  max_attempts cfg <= or_default (QAState.attempts state) 0.
Definition at_entry {C : Collaborators} (cfg : AgentConfig)
    (n : node_id) (state : QAState) (_ : Sys) : Prop :=
  match n with
  | N_answer => exhausted cfg state
  | _ => True
  end.
Definition at_stop {C : Collaborators} (_ : Sys) : Prop := True.
Definition at_end {C : Collaborators} (cfg : AgentConfig)
    (state : QAState) (_ : Sys) : Prop :=
  (is_clarify state = true ->
   QAState.answer state =
     Some (or_default (QAState.clarification_question state) (VStr "Can you clarify?"))) /\
  (is_clarify state = false -> has_error state = true ->
   QAState.answer state =
     Some (VStr (failure_answer (or_default (QAState.last_error state) EmptyString))) /\
   max_attempts cfg <= or_default (QAState.attempts state) 0).
End Verdict.

(** What one step of the engine must establish for an invariant given by
    [P] (on entering a node), [Stop] (wherever the run stops) and [Final]
    (at END): [r] and [sys'] are what running node [n] returned. *)
Definition kept_by_step {C : Collaborators} (cfg : AgentConfig)
    (P : node_id -> QAState -> Sys -> Prop) (Stop : Sys -> Prop)
    (Final : QAState -> Sys -> Prop)
    (n : node_id) (r : exn + QAState) (sys' : Sys) : Prop :=
  match r with
  | inl _ => Stop sys'
  | inr state' =>
      match next_node cfg n state' with
      | Some m => P m state' sys'
      | None => Stop sys' /\ Final state' sys'
      end
  end.

(** * Properties *)

(** Unfolds the monad and the effect wrappers down to the collaborators. *)
Ltac run_monad :=
  repeat (progress (cbv beta iota delta [bind ret raise _trace now_ms call_llm
                                         call_execute call_sqlite_master _schema_text
                                         enter with_world];
                    cbn [world llm_calls executed visited])).

(** ** Facts about text *)

Module TextFacts.
Import PyStr.

Lemma append_nil_r (s : string) : s ++ EmptyString = s.
Proof. induction s as [|c s IH]; simpl; [reflexivity | now rewrite IH]. Qed.

Lemma append_assoc (a b c : string) : (a ++ b) ++ c = a ++ b ++ c.
Proof. induction a as [|x a IH]; simpl; [reflexivity | now rewrite IH]. Qed.

Lemma length_append (a b : string) :
  String.length (a ++ b) = (String.length a + String.length b)%nat.
Proof. induction a as [|x a IH]; simpl; [reflexivity | now rewrite IH]. Qed.

Lemma append_inv_head (a b c : string) : a ++ b = a ++ c -> b = c.
Proof. induction a as [|x a IH]; simpl; intros H; [assumption | injection H; auto]. Qed.

Lemma prefix_spec (p s : string) :
  String.prefix p s = true <-> exists r, s = p ++ r.
Proof.
  revert s; induction p as [|c p IH]; intros s; simpl.
  - split; [intros _; exists s; reflexivity | intros _; destruct s; reflexivity].
  - destruct s as [|d s]; simpl.
    + split; [discriminate | intros [r H]; discriminate].
    + destruct (ascii_dec c d) as [->|Hne].
      * rewrite IH. split; intros [r H]; exists r; [now rewrite H | now injection H].
      * split; [discriminate | intros [r H]; injection H; intros; subst; contradiction].
Qed.

Lemma prefix_append (p s : string) : String.prefix p (p ++ s) = true.
Proof. apply prefix_spec; now exists s. Qed.

Lemma contains_spec (sub s : string) :
  contains sub s = true <-> exists pre post, s = pre ++ sub ++ post.
Proof.
  induction s as [|c s IH].
  - cbn [contains]. rewrite orb_false_r, prefix_spec. split.
    + intros [r H]. exists EmptyString, r. exact H.
    + intros [pre [post H]]. destruct pre; simpl in H; [now exists post | discriminate].
  - cbn [contains]. rewrite orb_true_iff, IH, prefix_spec. split.
    + intros [[r H] | [pre [post H]]].
      * exists EmptyString, r. exact H.
      * exists (String c pre), post. simpl. now rewrite H.
    + intros [pre [post H]]. destruct pre as [|d pre]; simpl in H.
      * left. now exists post.
      * right. injection H as _ H. now exists pre, post.
Qed.

Lemma contains_append (pre sub post : string) : contains sub (pre ++ sub ++ post) = true.
Proof. apply contains_spec; now exists pre, post. Qed.

Lemma lower_append (a b : string) : lower (a ++ b) = lower a ++ lower b.
Proof. induction a as [|x a IH]; simpl; [reflexivity | now rewrite IH]. Qed.

Lemma lower_split (s a b : string) :
  lower s = a ++ b -> exists sa sb, s = sa ++ sb /\ lower sa = a /\ lower sb = b.
Proof.
  revert s; induction a as [|x a IH]; intros s H.
  - exists EmptyString, s. auto.
  - destruct s as [|c s]; simpl in H; [discriminate|].
    injection H as Hc H. destruct (IH _ H) as [sa [sb [-> [Ha Hb]]]].
    exists (String c sa), sb. simpl. now rewrite Hc, Ha.
Qed.

(** *** Stripping *)

Lemma lstrip_by_app_keep (p : ascii -> bool) (a : string) (c : ascii) (r : string) :
  p c = false ->
  exists a', lstrip_by p (a ++ String c r) = a' ++ String c r /\
             exists a0, a = a0 ++ a'.
Proof.
  intros Hc. induction a as [|x a IH]; simpl.
  - rewrite Hc. exists EmptyString. split; [reflexivity | now exists EmptyString].
  - destruct (p x).
    + destruct IH as [a' [H [a0 Ha]]]. exists a'. split; [exact H|].
      exists (String x a0). simpl. now rewrite Ha.
    + exists (String x a). split; [reflexivity | now exists EmptyString].
Qed.

Lemma rstrip_by_keep (p : ascii -> bool) (a : string) (c : ascii) :
  p c = false -> rstrip_by p (a ++ String c EmptyString) = a ++ String c EmptyString.
Proof.
  intros Hc. induction a as [|x a IH]; simpl.
  - now rewrite Hc.
  - rewrite IH. destruct a; reflexivity.
Qed.

Lemma rstrip_by_is_prefix (p : ascii -> bool) (b : string) :
  exists b0, b = rstrip_by p b ++ b0.
Proof.
  induction b as [|y b [b0 IH]]; simpl.
  - now exists EmptyString.
  - destruct (rstrip_by p b) eqn:Hb.
    + destruct (p y).
      * now exists (String y b).
      * exists b0. simpl in *. now rewrite <- IH.
    + exists b0. simpl in *. now rewrite <- IH.
Qed.

Lemma rstrip_by_app_keep (p : ascii -> bool) (a : string) (c : ascii) (b : string) :
  p c = false ->
  exists b', rstrip_by p (a ++ String c b) = a ++ String c b' /\
             exists b0, b = b' ++ b0.
Proof.
  intros Hc. exists (rstrip_by p b). split; [|apply rstrip_by_is_prefix].
  induction a as [|x a IH].
  - simpl. destruct (rstrip_by p b); [now rewrite Hc | reflexivity].
  - simpl. rewrite IH. destruct a; reflexivity.
Qed.

End TextFacts.

(** ** The nodes, one step at a time *)

Section NodeFacts.

Context {J : JsonLib} {C : Collaborators}.
Variable cfg : AgentConfig.

Import PyStr.

Lemma exec_sql_no_query_with_error (state : QAState) (sys : Sys) (e : string) :
  no_query state -> QAState.last_error state = Some e -> e <> EmptyString ->
  exec_sql state sys = (inr state, sys).
Proof.
  intros Hq He Hne. unfold exec_sql, or_default.
  assert (Hs : String.eqb (match QAState.sql state with Some a => a | None => EmptyString end)
                          EmptyString = true).
  { destruct Hq as [-> | ->]; reflexivity. }
  rewrite Hs, He. apply String.eqb_neq in Hne. rewrite Hne.
  unfold ret. destruct state; cbn in *. now subst.
Qed.

Lemma exec_sql_no_query_no_error (state : QAState) (sys : Sys) :
  no_query state -> no_error state ->
  exec_sql state sys = (inr (QAState.set_last_error "No SQL produced." state), sys).
Proof.
  intros Hq He. unfold exec_sql, or_default.
  assert (Hs : String.eqb (match QAState.sql state with Some a => a | None => EmptyString end)
                          EmptyString = true).
  { destruct Hq as [-> | ->]; reflexivity. }
  rewrite Hs. destruct He as [-> | ->]; reflexivity.
Qed.

(** What [gen_sql] does with a reply that decodes to an object. *)
Lemma gen_sql_call (state : QAState) (sys : Sys) (sch raw : string) (w : World) :
  QAState.schema state = Some sch ->
  llm (_sql_prompt (QAState.question state) sch
         (or_default (QAState.last_error state) EmptyString)) (world sys) = (raw, w) ->
  exists r sys',
    gen_sql cfg state sys = (r, sys') /\
    llm_calls sys' = (llm_calls sys ++
      [_sql_prompt (QAState.question state) sch
         (or_default (QAState.last_error state) EmptyString)])%list /\
    executed sys' = executed sys /\ visited sys' = visited sys.
Proof.
  intros Hsch Hllm. unfold gen_sql. rewrite Hsch. run_monad. rewrite Hllm.
  run_monad. destruct (time_ms w) as [ts w1] eqn:Ht. run_monad.
  destruct (_parse_json raw) as [e | v].
  - eexists _, _. split; [reflexivity|]. auto.
  - destruct v as [ | b | n | f | t | l | obj];
      try (eexists _, _; split; [reflexivity|]; now auto).
    destruct (match Dict.get "type" obj with Some ty => eq_str ty "clarify" | None => false end).
    + eexists _, _. split; [reflexivity|]. auto.
    + unfold or_default.
      destruct (match Dict.get "sql" obj with Some a => a | None => VStr EmptyString end)
        as [ | b | n | f | text | l | d];
        try (eexists _, _; split; [reflexivity|]; now auto).
      destruct (negb (startswith "select" (lower (rstrip_chars ";" (strip text))))).
      * eexists _, _. split; [reflexivity|]. auto.
      * run_monad. destruct (time_ms w1) as [ts2 w2]. eexists _, _. split; [reflexivity|]. auto.
Qed.

Lemma gen_sql_rejects (state : QAState) (sys : Sys) (sch raw text : string)
    (w : World) (obj : Dict.t) :
  QAState.schema state = Some sch ->
  llm (_sql_prompt (QAState.question state) sch
         (or_default (QAState.last_error state) EmptyString)) (world sys) = (raw, w) ->
  _parse_json raw = inr (VDict obj) ->
  Dict.get "type" obj = Some (VStr "sql") ->
  Dict.get "sql" obj = Some (VStr text) ->
  startswith "select" (lower (rstrip_chars ";" (strip text))) = false ->
  exists state' sys',
    gen_sql cfg state sys = (inr state', sys') /\
    QAState.sql state' = Some EmptyString /\
    QAState.last_error state' = Some "Only SELECT allowed." /\
    QAState.decision state' = Some "sql" /\
    executed sys' = executed sys.
Proof.
  intros Hsch Hllm Hjson Hty Hsql Hsel. unfold gen_sql. rewrite Hsch. run_monad.
  rewrite Hllm. run_monad. destruct (time_ms w) as [ts w1]. run_monad.
  rewrite Hjson, Hty. cbn [eq_str String.eqb Ascii.eqb Bool.eqb]. unfold or_default.
  rewrite Hsql, Hsel. cbn [negb].
  eexists _, _. split; [reflexivity|]. cbn. auto.
Qed.

End NodeFacts.

(** ** Validation, limiting and the execute and answer steps *)

Section StepProperties.

Context {J : JsonLib} {C : Collaborators}.
Variable cfg : AgentConfig.

Import PyStr TextFacts.

Lemma limit_test_ignores_case (word q : string) :
  contains word (lower q) = true <-> occurs_ignoring_case word q.
Proof.
  rewrite contains_spec. split.
  - intros [pre [post H]].
    destruct (lower_split _ _ _ H) as [sa [sb [-> [Ha Hb]]]].
    destruct (lower_split _ _ _ Hb) as [sm [sp [-> [Hm Hp]]]].
    now exists sa, sm, sp.
  - intros [b [f [a [-> Hf]]]]. exists (lower b), (lower a).
    now rewrite !lower_append, Hf.
Qed.

Lemma gen_sql_accepts (state : QAState) (sys : Sys) (sch raw text : string)
    (w : World) (obj : Dict.t) :
  QAState.schema state = Some sch ->
  llm (_sql_prompt (QAState.question state) sch
         (or_default (QAState.last_error state) EmptyString)) (world sys) = (raw, w) ->
  _parse_json raw = inr (VDict obj) ->
  Dict.get "type" obj = Some (VStr "sql") ->
  Dict.get "sql" obj = Some (VStr text) ->
  startswith "select" (lower (rstrip_chars ";" (strip text))) = true ->
  exists state' sys',
    gen_sql cfg state sys = (inr state', sys') /\
    QAState.sql state' =
      Some (if contains " limit " (lower (rstrip_chars ";" (strip text)))
            then rstrip_chars ";" (strip text)
            else rstrip_chars ";" (strip text) ++ " LIMIT " ++ str_of_int (max_rows cfg)) /\
    QAState.last_error state' = Some EmptyString /\
    QAState.decision state' = Some "sql" /\
    executed sys' = executed sys.
Proof.
  intros Hsch Hllm Hjson Hty Hsql Hsel. unfold gen_sql. rewrite Hsch. run_monad.
  rewrite Hllm. run_monad. destruct (time_ms w) as [ts w1]. run_monad.
  rewrite Hjson, Hty. cbn [eq_str String.eqb Ascii.eqb Bool.eqb]. unfold or_default.
  rewrite Hsql, Hsel. cbn [negb]. run_monad. destruct (time_ms w1) as [ts2 w2].
  eexists _, _. split; [reflexivity|]. cbn.
  destruct (contains " limit " (lower (rstrip_chars ";" (strip text)))); cbn; auto.
Qed.

(** C1. A reply of type "sql" whose text, stripped of surrounding
    whitespace and trailing semicolons, does not start with "select" in any
    letter case: [gen_sql] stores the empty query and "Only SELECT
    allowed." as the last error, and [exec_sql] then returns without
    handing anything to the database. *)
Theorem non_select_never_reaches_execution
    (state : QAState) (sys : Sys) (sch raw text : string) (w : World) (obj : Dict.t) :
  QAState.schema state = Some sch ->
  llm (_sql_prompt (QAState.question state) sch
         (or_default (QAState.last_error state) EmptyString)) (world sys) = (raw, w) ->
  _parse_json raw = inr (VDict obj) ->
  Dict.get "type" obj = Some (VStr "sql") ->
  Dict.get "sql" obj = Some (VStr text) ->
  startswith "select" (lower (rstrip_chars ";" (strip text))) = false ->
  exists state' sys',
    gen_sql cfg state sys = (inr state', sys') /\
    QAState.sql state' = Some EmptyString /\
    QAState.last_error state' = Some "Only SELECT allowed." /\
    executed sys' = executed sys /\
    exec_sql state' sys' = (inr state', sys').
Proof.
  intros Hsch Hllm Hjson Hty Hsql Hsel.
  destruct (gen_sql_rejects cfg state sys sch raw text w obj Hsch Hllm Hjson Hty Hsql Hsel)
    as [state' [sys' [Hgen [Hq [He [_ Hex]]]]]].
  exists state', sys'. repeat split; try assumption.
  apply exec_sql_no_query_with_error with (e := "Only SELECT allowed.");
    [now right | assumption | discriminate].
Qed.


Lemma answer_of_failure (state : QAState) (sys : Sys) (e : string) :
  is_clarify state = false ->
  QAState.last_error state = Some e -> e <> EmptyString ->
  answer state sys =
    (let (ts, w) := time_ms (world sys) in
     (inr (QAState.set_trace
             (QAState.trace state ++
              [Event.make ts "answer" [("answer", VStr (failure_answer e))]])
             (QAState.set_answer (VStr (failure_answer e)) state)),
      with_world w sys)).
Proof.
  intros Hc He Hne. unfold answer. unfold is_clarify in Hc. rewrite Hc, He.
  apply String.eqb_neq in Hne. rewrite Hne. cbn [negb or_default]. run_monad.
  destruct (time_ms (world sys)) as [ts w]. reflexivity.
Qed.

Lemma answer_of_clarify (state : QAState) (sys : Sys) :
  is_clarify state = true ->
  answer state sys =
    (let (ts, w) := time_ms (world sys) in
     let text := or_default (QAState.clarification_question state)
                            (VStr "Can you clarify?") in
     (inr (QAState.set_trace
             (QAState.trace state ++ [Event.make ts "answer" [("answer", text)]])
             (QAState.set_answer text state)),
      with_world w sys)).
Proof.
  intros Hc. unfold answer. unfold is_clarify in Hc. rewrite Hc. run_monad.
  destruct (time_ms (world sys)) as [ts w]. reflexivity.
Qed.

(** C6. A state that reaches [answer] with a decision other than
    "clarify" and a non-empty last error: the answer is the fixed text
    "Couldn't run a valid SQL query." / "Error: " and the last error / "Try
    rephrasing or adding missing details.", on three lines; the step records
    it in the trace after one clock reading and sends no prompt to the
    model. *)
Theorem failure_answer_is_the_fixed_template
    (state : QAState) (sys : Sys) (e : string) :
  QAState.decision state <> Some "clarify" ->
  QAState.last_error state = Some e -> e <> EmptyString ->
  exists state' sys',
    answer state sys = (inr state', sys') /\
    QAState.answer state' =
      Some (VStr ("Couldn't run a valid SQL query." ++ nl ++ "Error: " ++ e ++ nl ++
                  "Try rephrasing or adding missing details.")) /\
    llm_calls sys' = llm_calls sys /\
    executed sys' = executed sys /\
    world sys' = snd (time_ms (world sys)).
Proof.
  intros Hd He Hne.
  assert (Hc : is_clarify state = false).
  { unfold is_clarify. destruct (QAState.decision state) as [d|]; [|reflexivity].
    apply String.eqb_neq. intros ->. now apply Hd. }
  rewrite (answer_of_failure state sys e Hc He Hne).
  destruct (time_ms (world sys)) as [ts w]. eexists _, _. split; [reflexivity|].
  cbn. auto.
Qed.


(** C10. [exec_sql] entered with no query and a non-empty last error
    returns the state as it was (last error, columns, rows, query, decision,
    attempts and trace) and touches neither database nor clock; "No SQL
    produced." is written only when no error is recorded; so the next
    generation prompt is built from the earlier error text. *)
Theorem exec_sql_keeps_the_earlier_error
    (state : QAState) (sys : Sys) (e sch : string) (blank : QAState) :
  no_query state -> QAState.last_error state = Some e -> e <> EmptyString ->
  QAState.schema state = Some sch ->
  no_query blank -> no_error blank ->
  exec_sql state sys = (inr state, sys) /\
  exec_sql blank sys = (inr (QAState.set_last_error "No SQL produced." blank), sys) /\
  (exists s1 sys1 r sys2,
     inc_attempts state sys = (inr s1, sys1) /\
     gen_sql cfg s1 sys1 = (r, sys2) /\
     llm_calls sys2 = (llm_calls sys ++ [_sql_prompt (QAState.question state) sch e])%list).
Proof.
  intros Hq He Hne Hsch Hqb Heb. split; [|split].
  - now apply exec_sql_no_query_with_error with (e := e).
  - now apply exec_sql_no_query_no_error.
  - unfold inc_attempts. run_monad. destruct (time_ms (world sys)) as [ts w1].
    match goal with |- context [(inr ?s, ?y) = _] => set (s1 := s); set (sys1 := y) end.
    destruct (llm (_sql_prompt (QAState.question s1) sch
                     (or_default (QAState.last_error s1) EmptyString)) (world sys1))
      as [raw w2] eqn:Hllm.
    destruct (gen_sql_call cfg s1 sys1 sch raw w2 Hsch Hllm) as [r [sys2 [Hgen [Hcalls _]]]].
    exists s1, sys1, r, sys2. split; [reflexivity|]. split; [exact Hgen|].
    rewrite Hcalls. subst s1 sys1. cbn. now rewrite He.
Qed.

End StepProperties.

(** ** The retry loop *)

Section RetryLoop.

Context {J : JsonLib} {C : Collaborators}.
Variable cfg : AgentConfig.

Import PyStr.

(** Case analysis on what the collaborators return, then on whatever else
    a node branches on. *)
Ltac split_effects :=
  match goal with
  | |- context [sqlite_master ?w] => destruct (sqlite_master w) as [[?|?] ?]
  | |- context [time_ms ?w] => destruct (time_ms w) as [? ?]
  | |- context [llm ?p ?w] => destruct (llm p w) as [? ?]
  | |- context [execute ?q ?p ?w] => destruct (execute q p w) as [[?|[? ?]] ?]
  end.

Ltac split_pure :=
  match goal with
  | |- context [match ?x with _ => _ end] =>
      lazymatch x with
      | context [match _ with _ => _ end] => fail
      | _ => destruct x
      end
  end.

Ltac split_branches :=
  run_monad; repeat (first [split_effects | split_pure]; run_monad).

Ltac framed :=
  intros H; injection H as <- <-;
  (split; [reflexivity|]; split; [discriminate|]; intros ? [= <-]; reflexivity).

(** A node leaves the engine's log alone, never raises the engine's own
    error, and only [inc_attempts] changes the attempt counter. *)
Lemma run_node_frame (n : node_id) (state : QAState) (sys : Sys) :
  forall r sys', run_node cfg n state sys = (r, sys') ->
    visited sys' = visited sys /\
    r <> inl GraphRecursionError /\
    forall state', r = inr state' ->
      QAState.attempts state' =
        match n with
        | N_attempt => Some (or_default (QAState.attempts state) 0 + 1)
        | _ => QAState.attempts state
        end.
Proof.
  intros r sys'. destruct n; cbn [run_node].
  - unfold load_schema. split_branches; framed.
  - unfold inc_attempts. split_branches; framed.
  - unfold gen_sql. split_branches; framed.
  - unfold exec_sql. split_branches; framed.
  - unfold answer. split_branches; framed.
Qed.

Lemma entries_app (n : node_id) (a b : list node_id) :
  entries n (a ++ b) = entries n a + entries n b.
Proof. unfold entries. rewrite filter_app, length_app. lia. Qed.

Lemma entries_nonneg (n : node_id) (l : list node_id) : 0 <= entries n l.
Proof. unfold entries. lia. Qed.

Lemma should_retry_room (state : QAState) (a : Z) :
  QAState.attempts state = Some a -> should_retry cfg state = retry ->
  a < max_attempts cfg.
Proof.
  unfold should_retry. intros ->. cbn [or_default].
  destruct (_ && _); [|discriminate].
  destruct (a <? max_attempts cfg) eqn:H; [lia | discriminate].
Qed.

Ltac arith :=
  unfold room, steps_to_end, may_enter, entries in *;
  cbn [filter node_id_eqb List.length] in *; lia.

Lemma run_from_bounds (budget : nat) :
  forall (n : node_id) (state : QAState) (sys : Sys) (a : Z),
    QAState.attempts state = Some a -> may_enter cfg n a ->
    forall r sys', run_from cfg budget n state sys = (r, sys') ->
      exists new,
        visited sys' = (visited sys ++ new)%list /\
        (forall m, counted m -> entries m new <= room cfg m n a) /\
        (forall out, r = inr out ->
           exists a', QAState.attempts out = Some a' /\ a' <= max_attempts cfg) /\
        (steps_to_end cfg n a <= Z.of_nat budget -> r <> inl GraphRecursionError).
Proof.
  induction budget as [|budget IH]; intros n state sys a Ha Hpre r sys' Hrun.
  - cbn in Hrun. injection Hrun as <- <-. exists []. rewrite app_nil_r.
    split; [reflexivity|]. split; [|split].
    + intros m [-> | [-> | ->]]; destruct n; arith.
    + discriminate.
    + intros Hb. destruct n; arith.
  - cbn [run_from] in Hrun.
    cbv beta iota delta [bind enter] in Hrun. cbn [world llm_calls executed visited] in Hrun.
    match type of Hrun with
    | context [run_node cfg n state ?s1] =>
        destruct (run_node cfg n state s1) as [r1 sys2] eqn:Hnode
    end.
    apply run_node_frame in Hnode. cbn [visited] in Hnode.
    destruct Hnode as [Hvis [Hnr Hatt]].
    destruct r1 as [e | state1].
    + injection Hrun as <- <-. exists [n]. split; [exact Hvis|]. split; [|split].
      * intros m [-> | [-> | ->]]; destruct n; arith.
      * discriminate.
      * intros _. exact Hnr.
    + specialize (Hatt state1 eq_refl).
      destruct (next_node cfg n state1) as [m|] eqn:Hnext.
      * assert (Hstep : exists a1, QAState.attempts state1 = Some a1 /\ may_enter cfg m a1 /\
                  (forall k, counted k ->
                     entries k [n] + room cfg k m a1 <= room cfg k n a) /\
                  1 + steps_to_end cfg m a1 <= steps_to_end cfg n a).
        { rewrite Ha in Hatt. destruct n; cbn [next_node] in Hnext; cbn [or_default] in Hatt.
          - injection Hnext as <-. exists a.
            split; [exact Hatt|]. split; [arith|]. split; [|arith].
            intros k [-> | [-> | ->]]; arith.
          - injection Hnext as <-. exists (a + 1).
            split; [exact Hatt|]. split; [arith|]. split; [|arith].
            intros k [-> | [-> | ->]]; arith.
          - injection Hnext as <-. exists a.
            split; [exact Hatt|]. split; [arith|]. split; [|arith].
            intros k [-> | [-> | ->]]; arith.
          - destruct (should_retry cfg state1) eqn:Hsr;
              injection Hnext as <-; exists a; (split; [exact Hatt|]).
            + pose proof (should_retry_room state1 a Hatt Hsr).
              split; [arith|]. split; [|arith]. intros k [-> | [-> | ->]]; arith.
            + split; [arith|]. split; [|arith]. intros k [-> | [-> | ->]]; arith.
          - discriminate. }
        destruct Hstep as [a1 [Ha1 [Hpre1 [Hroom Hsteps]]]].
        destruct (IH m state1 sys2 a1 Ha1 Hpre1 r sys' Hrun)
          as [new [Hv [Hcount [Hfinal Hend]]]].
        exists (n :: new). split; [|split; [|split]].
        -- rewrite Hv, Hvis. now rewrite <- app_assoc.
        -- intros k Hk. change (n :: new) with ([n] ++ new)%list.
           rewrite entries_app. specialize (Hcount k Hk). specialize (Hroom k Hk). lia.
        -- exact Hfinal.
        -- intros Hb. apply Hend. lia.
      * injection Hrun as <- <-.
        destruct n; cbn [next_node] in Hnext; try discriminate;
          [destruct (should_retry cfg state1); discriminate|].
        exists [N_answer]. split; [exact Hvis|]. split; [|split].
        -- intros m [-> | [-> | ->]]; arith.
        -- intros out [= <-]. exists a. rewrite Hatt. split; [exact Ha | arith].
        -- discriminate.
Qed.

(** C2. A session started by [run_question] (attempt counter 0) with
    [max_attempts] at least 1: whatever the model replies and the database
    returns, the run comes to an end within [3 * max_attempts + 2] engine
    steps; [inc_attempts], [gen_sql] and [exec_sql] are each entered at most
    [max_attempts] times; and the attempt counter of the final state is at
    most [max_attempts]. *)
Theorem attempts_are_bounded (budget : nat) (question : string) (w : World) :
  1 <= max_attempts cfg ->
  exists r sys',
    run_question cfg budget question (start w) = (r, sys') /\
    (3 * max_attempts cfg + 2 <= Z.of_nat budget -> r <> inl GraphRecursionError) /\
    entries N_attempt (visited sys') <= max_attempts cfg /\
    entries N_gen_sql (visited sys') <= max_attempts cfg /\
    entries N_exec_sql (visited sys') <= max_attempts cfg /\
    (forall ans trace out, r = inr (ans, trace, out) ->
       exists a, QAState.attempts out = Some a /\ a <= max_attempts cfg).
Proof.
  intros Hmax. unfold run_question, invoke. run_monad.
  destruct (run_from cfg budget N_load_schema (QAState.initial question) (start w))
    as [r0 sys'] eqn:Hrun.
  assert (Hpre : may_enter cfg N_load_schema 0) by (unfold may_enter; lia).
  destruct (run_from_bounds budget N_load_schema (QAState.initial question) (start w) 0
              eq_refl Hpre r0 sys' Hrun) as [new [Hv [Hcount [Hfinal Hend]]]].
  cbn [start visited app] in Hv. subst new.
  pose proof (Hcount N_attempt (or_introl eq_refl)) as HA.
  pose proof (Hcount N_gen_sql (or_intror (or_introl eq_refl))) as HG.
  pose proof (Hcount N_exec_sql (or_intror (or_intror eq_refl))) as HE.
  unfold room in HA, HG, HE. unfold steps_to_end in Hend.
  destruct r0 as [e | out].
  - eexists _, _. split; [reflexivity|]. repeat split; try lia.
    + intros Hb Heq. apply Hend; [lia|]. now injection Heq as ->.
    + discriminate.
  - eexists _, _. split; [reflexivity|]. repeat split; try lia.
    + discriminate.
    + intros ans trace out' [= _ _ <-]. now apply Hfinal.
Qed.

End RetryLoop.

(** ** The generation prompt *)

Module PromptFacts.
Import PyStr Textwrap TextFacts.

(** Both sides are the same text up to the bracketing of [++]. *)
Ltac same_text :=
  repeat (progress (rewrite ?append_assoc; cbn [append nl]));
  rewrite ?append_nil_r; reflexivity.

Lemma split_nl_nonempty (s : string) : split_nl s <> [].
Proof.
  destruct s as [|c r]; cbn [split_nl]; [discriminate|].
  destruct (Ascii.eqb c "010"%char); [discriminate|].
  destruct (split_nl r); discriminate.
Qed.

Lemma split_nl_app (a b : string) :
  split_nl (a ++ nl ++ b) = (split_nl a ++ split_nl b)%list.
Proof.
  induction a as [|c a IH].
  - reflexivity.
  - cbn [append split_nl]. rewrite IH.
    destruct (Ascii.eqb c "010"%char); [reflexivity|].
    destruct (split_nl a) as [|l ls] eqn:Ha; [now apply split_nl_nonempty in Ha|].
    reflexivity.
Qed.

Lemma split_nl_prefix (p e : string) :
  no_newline p = true ->
  split_nl (p ++ e) =
    match split_nl e with
    | l :: ls => (p ++ l) :: ls
    | [] => [p]
    end.
Proof.
  induction p as [|c p IH]; intros Hp.
  - cbn [append]. destruct (split_nl e) eqn:He; [now apply split_nl_nonempty in He|reflexivity].
  - cbn [no_newline] in Hp. apply andb_true_iff in Hp as [Hc Hp].
    apply negb_true_iff in Hc. cbn [append split_nl]. rewrite Hc, (IH Hp).
    destruct (split_nl e); reflexivity.
Qed.

Lemma join_split_nl (s : string) : join nl (split_nl s) = s.
Proof.
  induction s as [|c r IH]; [reflexivity|]. cbn [split_nl].
  destruct (Ascii.eqb_spec c "010"%char) as [->|Hc].
  - destruct (split_nl r) as [|l ls] eqn:Hr; [now apply split_nl_nonempty in Hr|].
    unfold join in *. cbn [String.concat] in *. now rewrite IH.
  - destruct (split_nl r) as [|l ls] eqn:Hr; [now apply split_nl_nonempty in Hr|].
    unfold join in *. cbn [String.concat] in *. destruct ls; cbn [append]; now rewrite IH.
Qed.

Lemma join_cons (x : string) (l : list string) :
  l <> [] -> join nl (x :: l) = x ++ nl ++ join nl l.
Proof. destruct l; [contradiction | reflexivity]. Qed.

Lemma join_app (a b : list string) :
  a <> [] -> b <> [] -> join nl (a ++ b) = join nl a ++ nl ++ join nl b.
Proof.
  intros Ha Hb. induction a as [|x a IH]; [contradiction|].
  destruct a as [|y a].
  - cbn [app]. now rewrite join_cons.
  - cbn [app] in *. rewrite join_cons by discriminate.
    rewrite IH by discriminate. rewrite (join_cons x (y :: a)) by discriminate.
    now rewrite !append_assoc.
Qed.

Lemma normalize_app (a b : string) :
  normalize (a ++ nl ++ b) = normalize a ++ nl ++ normalize b.
Proof.
  unfold normalize. rewrite split_nl_app, map_app.
  apply join_app; intros H; apply map_eq_nil in H; now apply split_nl_nonempty in H.
Qed.

Lemma blank_char_isspace (c : ascii) : blank_char c = true -> isspace c = true.
Proof.
  unfold blank_char. intros H. apply orb_true_iff in H as [H|H];
    apply Ascii.eqb_eq in H; subst; reflexivity.
Qed.

Lemma all_blank_all_space (l : string) : all_blank l = true -> all_space l = true.
Proof.
  induction l as [|c l IH]; [reflexivity|]. cbn [all_blank all_space].
  intros H. apply andb_true_iff in H as [Hc Hl].
  now rewrite (blank_char_isspace c Hc), (IH Hl).
Qed.

Lemma visible_line_kept (l : string) : space_line l = false -> empty_if_blank l = l.
Proof.
  unfold empty_if_blank, whitespace_only, space_line. destruct l as [|c l]; [reflexivity|].
  intros H. destruct (all_blank (String c l)) eqn:Hb; [|reflexivity].
  apply all_blank_all_space in Hb. congruence.
Qed.

Lemma map_visible_lines (ls : list string) :
  Forall (fun l => space_line l = false) ls -> map empty_if_blank ls = ls.
Proof.
  induction 1 as [|l ls Hl _ IH]; [reflexivity|]. cbn [map].
  now rewrite (visible_line_kept l Hl), IH.
Qed.

(** The line that quotes the error goes through [dedent] unchanged. *)
Lemma normalize_quoted_error (e : string) :
  later_lines_visible e ->
  normalize ("Previous SQL failed: " ++ e) = "Previous SQL failed: " ++ e.
Proof.
  intros Hvis. unfold normalize.
  rewrite <- (join_split_nl ("Previous SQL failed: " ++ e)) at 2. f_equal.
  rewrite split_nl_prefix by reflexivity. unfold later_lines_visible in Hvis.
  destruct (split_nl e) as [|l ls]; [reflexivity|]. cbn [tl] in Hvis. cbn [map].
  now rewrite (map_visible_lines ls Hvis).
Qed.

Lemma margin_stays_empty (l : list string) :
  fold_left margin_step l (Some EmptyString) = Some EmptyString.
Proof. induction l as [|i l IH]; [reflexivity|]. destruct i; cbn; exact IH. Qed.

(** [dedent] removes no indentation from a text whose second line starts
    at the left edge. *)
Lemma dedent_flush_left (head rest : string) :
  split_nl head = [head] -> indent_of head = Some EmptyString ->
  margin (nl ++ head ++ nl ++ rest) = Some EmptyString.
Proof.
  intros Hsplit Hind. unfold margin.
  change (nl ++ head ++ nl ++ rest) with (EmptyString ++ nl ++ head ++ nl ++ rest).
  rewrite (split_nl_app EmptyString (head ++ nl ++ rest)), split_nl_app, Hsplit.
  cbn [split_nl app indents]. change (indent_of EmptyString) with (@None string).
  cbn iota. rewrite Hind. cbn [fold_left margin_step]. apply margin_stays_empty.
Qed.

Lemma head_facts :
  split_nl sql_prompt_head = [sql_prompt_head] /\
  indent_of sql_prompt_head = Some EmptyString /\
  normalize sql_prompt_head = sql_prompt_head.
Proof. repeat split; reflexivity. Qed.

Lemma rstrip_keep (a : string) (c : ascii) (b : string) :
  isspace c = false ->
  rstrip_by isspace (a ++ String c b) = a ++ String c (rstrip_by isspace b).
Proof.
  intros Hc. induction a as [|x a IH].
  - cbn [append rstrip_by]. destruct (rstrip_by isspace b); [now rewrite Hc | reflexivity].
  - cbn [append rstrip_by]. rewrite IH. destruct a; reflexivity.
Qed.

(** The text handed to [dedent] when an error is quoted, and its image. *)
Lemma dedent_with_error (question schema e : string) :
  later_lines_visible e ->
  dedent (nl ++ sql_prompt_head ++ nl ++ sql_prompt_rules ++ schema ++ nl ++
          "User question: " ++ question ++
          (nl ++ "Previous SQL failed: " ++ e ++ nl ++ "Fix it." ++ nl) ++ nl) =
  nl ++ sql_prompt_head ++ nl ++ prompt_body question schema ++ nl ++
  "Previous SQL failed: " ++ e ++ nl ++ "Fix it." ++ nl ++ nl.
Proof.
  intros Hvis.
  assert (Hnorm :
    normalize (nl ++ sql_prompt_head ++ nl ++ sql_prompt_rules ++ schema ++ nl ++
               "User question: " ++ question ++
               (nl ++ "Previous SQL failed: " ++ e ++ nl ++ "Fix it." ++ nl) ++ nl) =
    nl ++ sql_prompt_head ++ nl ++ prompt_body question schema ++ nl ++
    "Previous SQL failed: " ++ e ++ nl ++ "Fix it." ++ nl ++ nl).
  { replace (nl ++ sql_prompt_head ++ nl ++ sql_prompt_rules ++ schema ++ nl ++
             "User question: " ++ question ++
             (nl ++ "Previous SQL failed: " ++ e ++ nl ++ "Fix it." ++ nl) ++ nl)
      with (EmptyString ++ nl ++ sql_prompt_head ++ nl ++
            (sql_prompt_rules ++ schema ++ nl ++ "User question: " ++ question) ++ nl ++
            ("Previous SQL failed: " ++ e) ++ nl ++ "Fix it." ++ nl ++ EmptyString ++ nl ++
            EmptyString).
    2:{ same_text. }
    rewrite !normalize_app. fold (prompt_body question schema). rewrite (normalize_quoted_error e Hvis).
    destruct head_facts as [_ [_ ->]].
    change (normalize EmptyString) with EmptyString.
    change (normalize "Fix it.") with "Fix it.".
    cbn [append]. rewrite ?append_assoc. reflexivity. }
  unfold dedent. rewrite Hnorm.
  destruct head_facts as [Hs [Hi _]].
  now rewrite (dedent_flush_left sql_prompt_head _ Hs Hi).
Qed.

Lemma dedent_without_error (question schema : string) :
  dedent (nl ++ sql_prompt_head ++ nl ++ sql_prompt_rules ++ schema ++ nl ++
          "User question: " ++ question ++ EmptyString ++ nl) =
  nl ++ sql_prompt_head ++ nl ++ prompt_body question schema ++ nl.
Proof.
  assert (Hnorm :
    normalize (nl ++ sql_prompt_head ++ nl ++ sql_prompt_rules ++ schema ++ nl ++
               "User question: " ++ question ++ EmptyString ++ nl) =
    nl ++ sql_prompt_head ++ nl ++ prompt_body question schema ++ nl).
  { replace (nl ++ sql_prompt_head ++ nl ++ sql_prompt_rules ++ schema ++ nl ++
             "User question: " ++ question ++ EmptyString ++ nl)
      with (EmptyString ++ nl ++ sql_prompt_head ++ nl ++
            (sql_prompt_rules ++ schema ++ nl ++ "User question: " ++ question) ++ nl ++
            EmptyString).
    2:{ same_text. }
    rewrite !normalize_app. fold (prompt_body question schema).
    destruct head_facts as [_ [_ ->]].
    change (normalize EmptyString) with EmptyString.
    cbn [append]. rewrite ?append_nil_r. reflexivity. }
  unfold dedent. rewrite Hnorm.
  destruct head_facts as [Hs [Hi _]].
  now rewrite (dedent_flush_left sql_prompt_head _ Hs Hi).
Qed.

Lemma rstrip_drop (a : string) (c : ascii) :
  isspace c = true ->
  rstrip_by isspace (a ++ String c EmptyString) = rstrip_by isspace a.
Proof.
  intros Hc. induction a as [|x a IH].
  - cbn. now rewrite Hc.
  - cbn [append rstrip_by]. now rewrite IH.
Qed.

Lemma rstrip_drop_nl (a : string) :
  rstrip_by isspace (a ++ nl) = rstrip_by isspace a.
Proof. now apply rstrip_drop. Qed.

Lemma head_shape :
  sql_prompt_head = String "Y"%char (head_middle ++ String "."%char EmptyString).
Proof. reflexivity. Qed.

(** The prompt that quotes an error, in closed form. *)
Lemma sql_prompt_with_error (question schema e : string) :
  e <> EmptyString -> later_lines_visible e ->
  _sql_prompt question schema e =
    sql_prompt_head ++ nl ++ prompt_body question schema ++ nl ++
    "Previous SQL failed: " ++ e ++ nl ++ "Fix it.".
Proof.
  intros Hne Hvis. unfold _sql_prompt, repair_section.
  apply String.eqb_neq in Hne. rewrite Hne.
  rewrite (dedent_with_error question schema e Hvis). unfold strip.
  replace (nl ++ sql_prompt_head ++ nl ++ prompt_body question schema ++ nl ++
           "Previous SQL failed: " ++ e ++ nl ++ "Fix it." ++ nl ++ nl)
    with ((nl ++ sql_prompt_head ++ nl ++ prompt_body question schema ++ nl ++
           "Previous SQL failed: " ++ e ++ nl ++ "Fix it") ++
          String "."%char (nl ++ nl)).
  2:{ same_text. }
  rewrite rstrip_keep by reflexivity. change (rstrip_by isspace (nl ++ nl)) with EmptyString.
  rewrite head_shape. cbn [nl append lstrip_by].
  change (isspace "010") with true. change (isspace "Y") with false. cbn iota.
  same_text.
Qed.

(** The prompt without an error: it ends with the question. *)
Lemma sql_prompt_without_error (question schema : string) :
  _sql_prompt question schema EmptyString =
    sql_prompt_head ++ rstrip_by isspace (nl ++ prompt_body question schema).
Proof.
  unfold _sql_prompt, repair_section. change (String.eqb EmptyString EmptyString) with true.
  cbn iota. rewrite (dedent_without_error question schema). unfold strip.
  replace (nl ++ sql_prompt_head ++ nl ++ prompt_body question schema ++ nl)
    with ((nl ++ String "Y"%char head_middle) ++
          String "."%char ((nl ++ prompt_body question schema) ++ nl)).
  2:{ rewrite head_shape. same_text. }
  rewrite rstrip_keep by reflexivity.
  rewrite (rstrip_drop_nl (nl ++ prompt_body question schema)).
  rewrite head_shape. cbn [nl append lstrip_by].
  change (isspace "010") with true. change (isspace "Y") with false. cbn iota.
  same_text.
Qed.

End PromptFacts.

Section RetryPrompt.

Context {J : JsonLib} {C : Collaborators}.
Variable cfg : AgentConfig.

Import PyStr TextFacts PromptFacts.

(** A failed execution: the error text becomes the last error, columns and
    rows are emptied, one "exec_sql_error" event is recorded. *)
Lemma exec_sql_failure (state : QAState) (sys : Sys) (q e : string) (w : World) :
  QAState.sql state = Some q -> q <> EmptyString ->
  execute q (passed_params state) (world sys) = (inl e, w) ->
  exists ts w',
    time_ms w = (ts, w') /\
    exec_sql state sys =
      (inr (QAState.set_trace
              (QAState.trace state ++ [Event.make ts "exec_sql_error" [("error", VStr e)]])
              (QAState.set_last_error e
                 (QAState.set_rows [] (QAState.set_columns [] state)))),
       {| world := w'; llm_calls := llm_calls sys;
          executed := (executed sys ++ [(q, passed_params state)])%list;
          visited := visited sys |}).
Proof.
  intros Hsql Hq Hexec. unfold exec_sql. rewrite Hsql. cbn [or_default].
  apply String.eqb_neq in Hq. rewrite Hq. run_monad.
  fold (passed_params state). rewrite Hexec. run_monad.
  destruct (time_ms w) as [ts w']. exists ts, w'. split; reflexivity.
Qed.

Lemma inc_attempts_step (state : QAState) (sys : Sys) :
  exists ts w,
    time_ms (world sys) = (ts, w) /\
    inc_attempts state sys =
      (inr (QAState.set_trace
              (QAState.trace state ++
               [Event.make ts "attempt"
                  [("n", VInt (or_default (QAState.attempts state) 0 + 1))]])
              (QAState.set_attempts (or_default (QAState.attempts state) 0 + 1) state)),
       with_world w sys).
Proof.
  unfold inc_attempts. run_monad. destruct (time_ms (world sys)) as [ts w].
  exists ts, w. split; reflexivity.
Qed.


End RetryPrompt.

(** ** The response parser *)

Module ParseFacts.
Import PyStr TextFacts.

Lemma contains_cons_false (c x : ascii) (r : string) :
  contains (one c) (String x r) = false ->
  Ascii.eqb c x = false /\ contains (one c) r = false.
Proof.
  cbn [contains one String.prefix]. intros H. apply orb_false_iff in H as [H1 H2].
  split; [|exact H2]. destruct (ascii_dec c x) as [->|Hne].
  - destruct r; discriminate.
  - now apply Ascii.eqb_neq.
Qed.

Lemma prefix_one (c x : ascii) (r : string) :
  String.prefix (one c) (String x r) = Ascii.eqb c x.
Proof.
  cbn [one String.prefix]. destruct (ascii_dec c x) as [->|Hne].
  - rewrite Ascii.eqb_refl. destruct r; reflexivity.
  - symmetry. now apply Ascii.eqb_neq.
Qed.

Lemma contains_app_false (c : ascii) (a b : string) :
  contains (one c) a = false -> contains (one c) b = false ->
  contains (one c) (a ++ b) = false.
Proof.
  intros Ha Hb. induction a as [|x a IH]; [exact Hb|].
  apply contains_cons_false in Ha as [Hx Ha]. cbn [append contains].
  rewrite prefix_one, Hx. cbn [orb]. now apply IH.
Qed.

Lemma contains_suffix_false (c : ascii) (a b : string) :
  contains (one c) (a ++ b) = false -> contains (one c) b = false.
Proof.
  induction a as [|x a IH]; [trivial|]. cbn [append]. intros H.
  apply contains_cons_false in H as [_ H]. now apply IH.
Qed.

Lemma contains_prefix_false (c : ascii) (a b : string) :
  contains (one c) (a ++ b) = false -> contains (one c) a = false.
Proof.
  induction a as [|x a IH]; [reflexivity|]. cbn [append]. intros H.
  apply contains_cons_false in H as [Hx H]. cbn [contains].
  rewrite prefix_one, Hx. cbn [orb]. now apply IH.
Qed.

(** The first occurrence of a character. *)
Lemma find_first (c : ascii) (p r : string) :
  contains (one c) p = false ->
  find (one c) (p ++ String c r) = Z.of_nat (String.length p).
Proof.
  induction p as [|x p IH]; intros Hp.
  - cbn [append find]. now rewrite prefix_one, Ascii.eqb_refl.
  - apply contains_cons_false in Hp as [Hx Hp]. cbn [append find].
    rewrite prefix_one, Hx, (IH Hp).
    destruct (Z.of_nat (String.length p) <? 0) eqn:Hlt; [lia|].
    cbn [String.length]. lia.
Qed.

Lemma rfind_absent (c : ascii) (s : string) :
  contains (one c) s = false -> rfind (one c) s = -1.
Proof.
  induction s as [|x s IH]; intros Hs; [reflexivity|].
  apply contains_cons_false in Hs as [Hx Hs]. cbn [rfind].
  rewrite (IH Hs), prefix_one, Hx. reflexivity.
Qed.

(** The last occurrence of a character. *)
Lemma rfind_last (c : ascii) (a s : string) :
  contains (one c) s = false ->
  rfind (one c) (a ++ String c s) = Z.of_nat (String.length a).
Proof.
  intros Hs. induction a as [|x a IH].
  - cbn [append rfind]. rewrite (rfind_absent c s Hs), prefix_one, Ascii.eqb_refl.
    reflexivity.
  - cbn [append rfind]. rewrite IH.
    destruct (0 <=? Z.of_nat (String.length a)) eqn:Hle; [|lia].
    cbn [String.length]. lia.
Qed.

Lemma substring_prefix (t b : string) :
  String.substring 0 (String.length t) (t ++ b) = t.
Proof. induction t as [|x t IH]; cbn; [destruct b; reflexivity | now rewrite IH]. Qed.

Lemma substring_middle (a t b : string) :
  String.substring (String.length a) (String.length t) (a ++ t ++ b) = t.
Proof. induction a as [|x a IH]; cbn; [apply substring_prefix | exact IH]. Qed.

(** *** What stripping leaves *)

Lemma lstrip_by_decompose (p : ascii -> bool) (s : string) :
  exists a, s = a ++ lstrip_by p s /\ forall c, contains (one c) a = true -> p c = true.
Proof.
  induction s as [|x s [a [Hs Ha]]].
  - exists EmptyString. split; [reflexivity|]. intros c H. cbn in H. discriminate.
  - cbn [lstrip_by]. destruct (p x) eqn:Hx.
    + exists (String x a). split; [cbn; now rewrite <- Hs|].
      intros c H. cbn [contains] in H. rewrite prefix_one in H.
      apply orb_true_iff in H as [H|H]; [|now apply Ha].
      apply Ascii.eqb_eq in H. now subst.
    + exists EmptyString. split; [reflexivity|]. intros c H. cbn in H. discriminate.
Qed.

Lemma lstrip_by_head (p : ascii -> bool) (s : string) (c : ascii) (r : string) :
  lstrip_by p s = String c r -> p c = false.
Proof.
  induction s as [|x s IH]; cbn [lstrip_by]; [discriminate|].
  destruct (p x) eqn:Hx; [exact IH|]. intros [= <- _]. exact Hx.
Qed.

Lemma rstrip_by_decompose (p : ascii -> bool) (s : string) :
  exists b, s = rstrip_by p s ++ b /\ forall c, contains (one c) b = true -> p c = true.
Proof.
  induction s as [|x s [b [Hs Hb]]].
  - exists EmptyString. split; [reflexivity|]. intros c H. cbn in H. discriminate.
  - cbn [rstrip_by]. destruct (rstrip_by p s) as [|y t] eqn:Hr.
    + destruct (p x) eqn:Hx.
      * exists (String x s). split; [reflexivity|]. cbn [append] in Hs. subst b.
        intros c H. cbn [contains] in H. rewrite prefix_one in H.
        apply orb_true_iff in H as [H|H]; [|now apply Hb].
        apply Ascii.eqb_eq in H. now subst.
      * exists b. split; [cbn [append] in *; now subst | exact Hb].
    + exists b. split; [cbn [append] in *; now rewrite <- Hs | exact Hb].
Qed.

Lemma rstrip_by_last (p : ascii -> bool) (s a : string) (c : ascii) :
  rstrip_by p s = a ++ one c -> p c = false.
Proof.
  revert a. induction s as [|x s IH]; intros a; cbn [rstrip_by].
  - destruct a; discriminate.
  - destruct (rstrip_by p s) as [|y t] eqn:Hr.
    + destruct (p x) eqn:Hx; [destruct a; discriminate|].
      destruct a as [|z a]; cbn; [intros [= <-]; exact Hx|].
      intros [= _ H]. destruct a; discriminate.
    + destruct a as [|z a]; cbn [append one].
      * discriminate.
      * intros [= _ H]. now apply (IH a).
Qed.

Lemma strip_head (s : string) (c : ascii) (r : string) :
  strip s = String c r -> isspace c = false.
Proof. apply lstrip_by_head. Qed.

Lemma strip_last (s a : string) (c : ascii) :
  strip s = a ++ one c -> isspace c = false.
Proof.
  unfold strip. intros H.
  destruct (lstrip_by_decompose isspace (rstrip_by isspace s)) as [pre [Hpre _]].
  rewrite H in Hpre. rewrite <- append_assoc in Hpre.
  now apply rstrip_by_last in Hpre.
Qed.

Lemma strip_decompose (s : string) :
  exists a b, s = a ++ strip s ++ b /\
    (forall c, contains (one c) a = true -> isspace c = true) /\
    (forall c, contains (one c) b = true -> isspace c = true).
Proof.
  destruct (rstrip_by_decompose isspace s) as [b [Hb Hbs]].
  destruct (lstrip_by_decompose isspace (rstrip_by isspace s)) as [a [Ha Has]].
  exists a, b. unfold strip. split; [|split; assumption].
  rewrite <- append_assoc, <- Ha. exact Hb.
Qed.

End ParseFacts.

Section Parser.

Context {J : JsonLib}.

Import PyStr TextFacts ParseFacts.

Lemma json_ws_isspace (c : ascii) : RefJson.is_ws c = true -> isspace c = true.
Proof.
  unfold RefJson.is_ws. intros H.
  repeat (apply orb_true_iff in H as [H|H]);
    apply Ascii.eqb_eq in H; subst; reflexivity.
Qed.

Lemma string_snoc (s : string) :
  s = EmptyString \/ exists a c, s = a ++ one c.
Proof.
  induction s as [|x s [->|[a [c ->]]]]; [now left| |]; right.
  - now exists EmptyString, x.
  - now exists (String x a), c.
Qed.

Lemma all_json_ws_snoc (a : string) (c : ascii) :
  all_json_ws (a ++ one c) = true -> RefJson.is_ws c = true.
Proof.
  induction a as [|x a IH]; cbn [append one all_json_ws]; intros H;
    apply andb_true_iff in H as [H1 H2]; [exact H1 | now apply IH].
Qed.

Lemma space_free (c : ascii) (s : string) :
  isspace c = false ->
  (forall x, contains (one x) s = true -> isspace x = true) ->
  contains (one c) s = false.
Proof.
  intros Hc Hs. destruct (contains (one c) s) eqn:H; [|reflexivity].
  apply Hs in H. congruence.
Qed.

(** A stripped text that decodes to an object runs from its opening brace
    to its closing brace. *)
Lemma stripped_object_is_braced (text : string) (obj : Dict.t) :
  objects_are_braced J ->
  json_loads (strip text) = inr (VDict obj) ->
  exists body, strip text = String "{"%char (body ++ one "}"%char).
Proof.
  intros Hshape Hload.
  destruct (Hshape _ _ Hload) as [before [body [after [Heq [Hb Ha]]]]].
  destruct before as [|c before].
  - destruct (string_snoc after) as [-> | [a [c ->]]].
    + exists body. rewrite Heq. reflexivity.
    + apply all_json_ws_snoc, json_ws_isspace in Ha.
      replace (EmptyString ++ "{" ++ body ++ "}" ++ a ++ one c)
        with (("{" ++ body ++ "}" ++ a) ++ one c) in Heq
        by (cbn [append]; now rewrite !append_assoc).
      apply strip_last in Heq. congruence.
  - cbn [all_json_ws] in Hb. apply andb_true_iff in Hb as [Hc _].
    apply json_ws_isspace in Hc. cbn [append] in Heq. apply strip_head in Heq. congruence.
Qed.

(** What [strip] leaves of an object wrapped in prose. *)
Lemma strip_wrapped (prefix j suffix body : string) :
  strip j = String "{"%char (body ++ one "}"%char) ->
  contains "{" prefix = false -> contains "}" suffix = false ->
  exists before after,
    strip (prefix ++ j ++ suffix) =
      before ++ String "{"%char (body ++ String "}"%char after) /\
    contains "{" before = false /\ contains "}" after = false.
Proof.
  intros Ht Hp Hs.
  destruct (strip_decompose j) as [a [b [Hj [Ha Hb]]]]. rewrite Ht in Hj.
  assert (Ha' : contains "{" a = false) by (apply (space_free "{"%char); [reflexivity|exact Ha]).
  assert (Hb' : contains "}" b = false) by (apply (space_free "}"%char); [reflexivity|exact Hb]).
  unfold strip.
  replace (prefix ++ j ++ suffix)
    with ((prefix ++ a ++ String "{"%char body) ++ String "}"%char (b ++ suffix)).
  2:{ rewrite Hj. rewrite !append_assoc. cbn [append one]. rewrite !append_assoc.
      reflexivity. }
  rewrite PromptFacts.rstrip_keep by reflexivity.
  destruct (rstrip_by_is_prefix isspace (b ++ suffix)) as [b0 Hb0].
  assert (Hafter : contains "}" (rstrip_by isspace (b ++ suffix)) = false).
  { apply (contains_prefix_false "}"%char _ b0). rewrite <- Hb0.
    now apply (contains_app_false "}"%char). }
  replace ((prefix ++ a ++ String "{"%char body) ++
           String "}"%char (rstrip_by isspace (b ++ suffix)))
    with ((prefix ++ a) ++
          String "{"%char (body ++ String "}"%char (rstrip_by isspace (b ++ suffix))))
    by (rewrite !append_assoc; reflexivity).
  destruct (lstrip_by_app_keep isspace (prefix ++ a) "{"%char
              (body ++ String "}"%char (rstrip_by isspace (b ++ suffix))) eq_refl)
    as [before [Hl [a0 Hbefore]]].
  exists before, (rstrip_by isspace (b ++ suffix)). split; [exact Hl|]. split; [|exact Hafter].
  apply (contains_suffix_false "{"%char a0). rewrite <- Hbefore.
  now apply (contains_app_false "{"%char).
Qed.

(** In such a text the span from the first opening brace to the last
    closing brace is the object. *)
Lemma brace_span_of_wrapped (before body after : string) :
  contains "{" before = false -> contains "}" after = false ->
  has_brace_span (before ++ String "{"%char (body ++ String "}"%char after)) = true /\
  brace_span (before ++ String "{"%char (body ++ String "}"%char after)) =
    String "{"%char (body ++ one "}"%char).
Proof.
  intros Hb Ha.
  set (s := before ++ String "{"%char (body ++ String "}"%char after)).
  assert (Hfind : find "{" s = Z.of_nat (String.length before))
    by (apply (find_first "{"%char); exact Hb).
  assert (Hrfind : rfind "}" s = Z.of_nat (String.length (before ++ String "{"%char body))).
  { subst s.
    replace (before ++ String "{"%char (body ++ String "}"%char after))
      with ((before ++ String "{"%char body) ++ String "}"%char after)
      by (rewrite !append_assoc; reflexivity).
    apply (rfind_last "}"%char); exact Ha. }
  rewrite length_append in Hrfind. cbn [String.length] in Hrfind.
  unfold has_brace_span, brace_span, slice. rewrite Hfind, Hrfind. split.
  - apply andb_true_iff. split;
      [apply negb_true_iff, Z.eqb_neq; lia | apply Z.ltb_lt; lia].
  - replace (Z.to_nat (Z.of_nat (String.length before))) with (String.length before) by lia.
    replace (Z.to_nat (Z.of_nat (String.length before + S (String.length body)) + 1 -
                       Z.of_nat (String.length before)))
      with (String.length (String "{"%char (body ++ one "}"%char)))
      by (cbn [String.length]; rewrite length_append; cbn [String.length one]; lia).
    subst s.
    replace (before ++ String "{"%char (body ++ String "}"%char after))
      with (before ++ String "{"%char (body ++ one "}"%char) ++ after)
      by (cbn [append]; rewrite !append_assoc; reflexivity).
    apply substring_middle.
Qed.


End Parser.

(** ** The reference decoder obeys the grammar fact *)

Module RefJsonFacts.
Import PyStr TextFacts ParseFacts RefJson.

Lemma suffix_refl (s : string) : suffix_of s s.
Proof. now exists EmptyString. Qed.

Lemma suffix_trans (a b c : string) : suffix_of a b -> suffix_of b c -> suffix_of a c.
Proof. intros [x ->] [y ->]. exists (y ++ x). now rewrite append_assoc. Qed.

Lemma suffix_cons (c : ascii) (rest s : string) :
  suffix_of rest s -> suffix_of rest (String c s).
Proof. intros [x ->]. now exists (String c x). Qed.

Lemma closes_after (rest x s : string) : suffix_of x s -> closes rest x -> closes rest s.
Proof. intros [c ->] [body ->]. exists (c ++ body). now rewrite append_assoc. Qed.

Lemma skip_ws_split (s : string) :
  exists w, s = w ++ skip_ws s /\ all_json_ws w = true.
Proof.
  unfold skip_ws. induction s as [|x s [w [Hs Hw]]].
  - now exists EmptyString.
  - cbn [lstrip_by]. destruct (is_ws x) eqn:Hx.
    + exists (String x w). cbn [append all_json_ws]. rewrite Hx, Hw. now rewrite <- Hs.
    + now exists EmptyString.
Qed.

Lemma skip_ws_suffix (s : string) : suffix_of (skip_ws s) s.
Proof. destruct (skip_ws_split s) as [w [H _]]. now exists w. Qed.

Lemma scanstring_suffix (n : nat) :
  forall begin s t rest,
    (String.length s <= n)%nat -> scanstring begin s = inr (t, rest) -> suffix_of rest s.
Proof.
  induction n as [|n IH]; intros begin s t rest Hlen Hscan.
  - destruct s; [discriminate | cbn in Hlen; lia].
  - destruct s as [|c r]; [discriminate|]. cbn [String.length] in Hlen.
    cbn [scanstring] in Hscan.
    destruct (Ascii.eqb c quote).
    { injection Hscan as _ <-. apply suffix_cons, suffix_refl. }
    destruct (Ascii.eqb c backslash).
    + destruct r as [|e r2]; [discriminate|]. cbn [String.length] in Hlen.
      destruct (Ascii.eqb e "u"%char).
      * destruct r2 as [|h1 [|h2 [|h3 [|h4 r6]]]]; try discriminate.
        cbn [String.length] in Hlen.
        destruct (hex4 h1 h2 h3 h4) as [k|]; [|discriminate].
        destruct (k <? 256)%nat; [|discriminate].
        destruct (scanstring begin r6) as [f | [t' rest']] eqn:Hrec; [discriminate|].
        injection Hscan as _ <-.
        do 6 apply suffix_cons. apply (IH begin r6 t' rest'); [lia | exact Hrec].
      * destruct (unescape e); [|discriminate].
        destruct (scanstring begin r2) as [f | [t' rest']] eqn:Hrec; [discriminate|].
        injection Hscan as _ <-.
        do 2 apply suffix_cons. apply (IH begin r2 t' rest'); [lia | exact Hrec].
    + destruct (code c <=? 31)%nat; [discriminate|].
      destruct (scanstring begin r) as [f | [t' rest']] eqn:Hrec; [discriminate|].
      injection Hscan as _ <-.
      apply suffix_cons. apply (IH begin r t' rest'); [lia | exact Hrec].
Qed.

Lemma take_digits_split (s : string) :
  forall d rest, take_digits s = (d, rest) -> s = d ++ rest.
Proof.
  induction s as [|c r IH]; intros d rest H; cbn [take_digits] in H.
  - now injection H as <- <-.
  - destruct (is_digit c).
    + destruct (take_digits r) as [d' rest'] eqn:Hr. injection H as <- <-.
      cbn [append]. now rewrite (IH d' rest' eq_refl).
    + now injection H as <- <-.
Qed.

Lemma take_digits_suffix (s d rest : string) :
  take_digits s = (d, rest) -> suffix_of rest s.
Proof. intros H. exists d. now apply take_digits_split. Qed.

Lemma int_part_suffix (s i rest : string) :
  int_part s = Some (i, rest) -> suffix_of rest s.
Proof.
  unfold int_part. destruct s as [|c r]; [discriminate|].
  destruct (Ascii.eqb c "0"%char).
  - intros [= _ <-]. apply suffix_cons, suffix_refl.
  - destruct (is_digit c); [|discriminate].
    destruct (take_digits r) as [d rest'] eqn:Hr. intros [= _ <-].
    apply suffix_cons. now apply (take_digits_suffix r d).
Qed.

Lemma frac_part_suffix (s f rest : string) :
  frac_part s = Some (f, rest) -> suffix_of rest s.
Proof.
  unfold frac_part. destruct s as [|c [|d r]]; try discriminate.
  destruct (Ascii.eqb c "."%char && is_digit d); [|discriminate].
  intros [= H]. apply suffix_cons. now apply (take_digits_suffix _ f).
Qed.

Lemma exp_part_suffix (s : string) (e : Z) (rest : string) :
  exp_part s = Some (e, rest) -> suffix_of rest s.
Proof.
  unfold exp_part. destruct s as [|c r]; [discriminate|].
  destruct (Ascii.eqb c "e"%char || Ascii.eqb c "E"%char); [|discriminate].
  intros H. apply suffix_cons.
  assert (Hsign : forall neg r1,
            (match r with
             | String sg r' =>
                 if Ascii.eqb sg "-"%char then (true, r')
                 else if Ascii.eqb sg "+"%char then (false, r')
                 else (false, r)
             | EmptyString => (false, r)
             end) = (neg, r1) -> suffix_of r1 r).
  { intros neg r1. destruct r as [|sg r']; [intros [= _ <-]; apply suffix_refl|].
    destruct (Ascii.eqb sg "-"%char); [intros [= _ <-]; apply suffix_cons, suffix_refl|].
    destruct (Ascii.eqb sg "+"%char); intros [= _ <-];
      [apply suffix_cons, suffix_refl | apply suffix_refl]. }
  destruct (match r with
            | String sg r' =>
                if Ascii.eqb sg "-"%char then (true, r')
                else if Ascii.eqb sg "+"%char then (false, r')
                else (false, r)
            | EmptyString => (false, r)
            end) as [neg r1] eqn:Hs.
  specialize (Hsign neg r1 eq_refl).
  destruct (take_digits r1) as [d rest'] eqn:Hd. destruct d; [discriminate|].
  injection H as _ <-. eapply suffix_trans; [|exact Hsign].
  eapply take_digits_suffix; exact Hd.
Qed.

Lemma match_number_shape (s : string) (v : value) (rest : string) :
  match_number s = Some (v, rest) -> suffix_of rest s /\ non_object v.
Proof.
  unfold match_number.
  set (split := match s with
                | String c r => if Ascii.eqb c "-"%char then (true, r) else (false, s)
                | EmptyString => (false, s)
                end).
  assert (Hsplit : suffix_of (snd split) s).
  { subst split. destruct s as [|c r]; [apply suffix_refl|].
    destruct (Ascii.eqb c "-"%char); [apply suffix_cons|]; apply suffix_refl. }
  destruct split as [negative body]. cbn [snd] in Hsplit.
  destruct (int_part body) as [[i r1]|] eqn:Hi; [|discriminate].
  apply int_part_suffix in Hi.
  assert (H1 : suffix_of r1 s) by (eapply suffix_trans; eassumption).
  destruct (frac_part r1) as [[f r2]|] eqn:Hf.
  - apply frac_part_suffix in Hf.
    destruct (exp_part r2) as [[e r3]|] eqn:He.
    + apply exp_part_suffix in He. intros [= <- <-]. split; [|discriminate].
      eapply suffix_trans; [exact He|]. eapply suffix_trans; eassumption.
    + intros [= <- <-]. split; [|discriminate]. eapply suffix_trans; eassumption.
  - destruct (exp_part r1) as [[e r3]|] eqn:He.
    + apply exp_part_suffix in He. intros [= <- <-]. split; [|discriminate].
      eapply suffix_trans; eassumption.
    + intros [= <- <-]. split; [exact H1 | discriminate].
Qed.

Lemma drop_suffix (n : nat) (s : string) : suffix_of (drop n s) s.
Proof.
  unfold drop. revert n. induction s as [|c r IH]; intros n.
  - destruct n; apply suffix_refl.
  - destruct n as [|n].
    + cbn [String.length Nat.sub String.substring].
      replace (String c (String.substring 0 (String.length r) r)) with (String c r);
        [apply suffix_refl|].
      f_equal. pose proof (substring_prefix r EmptyString) as H.
      rewrite append_nil_r in H. now rewrite H.
    + cbn [String.length Nat.sub String.substring]. apply suffix_cons, IH.
Qed.

Lemma keyword_shape (s : string) (v : value) (rest : string) :
  keyword s = Some (v, rest) -> suffix_of rest s /\ non_object v.
Proof.
  unfold keyword.
  repeat match goal with
         | |- context [if ?b then _ else _] => destruct b
         end;
    intros [= <- <-]; (split; [apply drop_suffix | discriminate]).
Qed.

Lemma scan_shapes (fuel : nat) :
  (forall s v rest, scan_once fuel s = inr (v, rest) ->
     suffix_of rest s /\
     forall d, v = VDict d -> exists body, s = String "{"%char (body ++ String "}"%char rest)) /\
  (forall acc s v rest, parse_pairs fuel acc s = inr (v, rest) -> closes rest s) /\
  (forall acc s v rest, parse_items fuel acc s = inr (v, rest) ->
     suffix_of rest s /\ non_object v).
Proof.
  induction fuel as [|fuel [IHscan [IHpairs IHitems]]].
  - repeat split; intros; discriminate.
  - split; [|split].
    + intros s v rest H. cbn [scan_once] in H. destruct s as [|c r]; [discriminate|].
      destruct (Ascii.eqb c quote).
      { destruct (scanstring (String c r) r) as [f | [t rest']] eqn:Hs; [discriminate|].
        injection H as <- <-. split; [|discriminate].
        apply suffix_cons. now apply (scanstring_suffix (String.length r) (String c r) r t). }
      destruct (Ascii.eqb_spec c "{"%char) as [-> | _].
      { assert (Hcl : closes rest r).
        { destruct (skip_ws r) as [|c1 r1] eqn:Hw.
          - apply IHpairs in H. apply (closes_after rest EmptyString); [|exact H].
            rewrite <- Hw. apply skip_ws_suffix.
          - destruct (Ascii.eqb_spec c1 "}"%char) as [-> | _].
            + injection H as _ <-. apply (closes_after _ (String "}"%char r1)).
              * rewrite <- Hw. apply skip_ws_suffix.
              * now exists EmptyString.
            + apply IHpairs in H. apply (closes_after rest (String c1 r1)); [|exact H].
              rewrite <- Hw. apply skip_ws_suffix. }
        destruct Hcl as [body ->]. split.
        - exists (String "{"%char (body ++ one "}"%char)). cbn [append one].
          now rewrite append_assoc.
        - intros d _. now exists body. }
      destruct (Ascii.eqb c "["%char).
      { assert (Hit : suffix_of rest r /\ non_object v).
        { destruct (skip_ws r) as [|c1 r1] eqn:Hw.
          - apply IHitems in H as [H1 H2]. split; [|exact H2].
            eapply suffix_trans; [exact H1|]. rewrite <- Hw. apply skip_ws_suffix.
          - destruct (Ascii.eqb c1 "]"%char).
            + injection H as <- <-. split; [|discriminate].
              apply (suffix_trans _ (String c1 r1));
                [apply suffix_cons, suffix_refl | rewrite <- Hw; apply skip_ws_suffix].
            + apply IHitems in H as [H1 H2]. split; [|exact H2].
              eapply suffix_trans; [exact H1|]. rewrite <- Hw. apply skip_ws_suffix. }
        destruct Hit as [H1 H2]. split; [now apply suffix_cons|].
        intros d Hd. now apply H2 in Hd. }
      destruct (keyword (String c r)) as [[v' rest']|] eqn:Hk.
      { injection H as <- <-. apply keyword_shape in Hk as [H1 H2].
        split; [exact H1|]. intros d Hd. now apply H2 in Hd. }
      destruct (match_number (String c r)) as [[v' rest']|] eqn:Hn; [|discriminate].
      injection H as <- <-. apply match_number_shape in Hn as [H1 H2].
      split; [exact H1|]. intros d Hd. now apply H2 in Hd.
    + intros acc s v rest H. cbn [parse_pairs] in H. destruct s as [|c r]; [discriminate|].
      destruct (Ascii.eqb c quote); [|discriminate].
      destruct (scanstring (String c r) r) as [f | [key r1]] eqn:Hs; [discriminate|].
      apply (scanstring_suffix (String.length r)) in Hs; [|lia].
      destruct (skip_ws r1) as [|c2 r3] eqn:Hw1; [discriminate|].
      pose proof (skip_ws_suffix r1) as S1. rewrite Hw1 in S1.
      destruct (Ascii.eqb c2 ":"%char); [|discriminate].
      destruct (scan_once fuel (skip_ws r3)) as [f | [v5 r5]] eqn:Hv; [discriminate|].
      apply IHscan in Hv as [S5 _].
      pose proof (skip_ws_suffix r3) as S3.
      destruct (skip_ws r5) as [|c6 r7] eqn:Hw5; [discriminate|].
      pose proof (skip_ws_suffix r5) as S6. rewrite Hw5 in S6.
      assert (Sall : suffix_of (String c6 r7) (String c r)).
      { apply suffix_cons. eapply suffix_trans; [|exact Hs].
        eapply suffix_trans; [|exact S1]. apply suffix_cons.
        eapply suffix_trans; [|exact S3]. eapply suffix_trans; [exact S6 | exact S5]. }
      destruct (Ascii.eqb_spec c6 "}"%char) as [-> | _].
      * injection H as _ <-. apply (closes_after _ _ _ Sall). now exists EmptyString.
      * destruct (Ascii.eqb c6 ","%char); [|discriminate].
        apply IHpairs in H. apply (closes_after _ _ _ Sall).
        apply (closes_after _ (skip_ws r7)); [|exact H].
        apply suffix_cons, skip_ws_suffix.
    + intros acc s v rest H. cbn [parse_items] in H.
      destruct (scan_once fuel s) as [f | [v1 r1]] eqn:Hv; [discriminate|].
      apply IHscan in Hv as [S1 _].
      destruct (skip_ws r1) as [|c2 r3] eqn:Hw1; [discriminate|].
      pose proof (skip_ws_suffix r1) as S2. rewrite Hw1 in S2.
      assert (Sall : suffix_of (String c2 r3) s) by (eapply suffix_trans; eassumption).
      destruct (Ascii.eqb c2 "]"%char).
      * injection H as <- <-. split; [|discriminate].
        eapply suffix_trans; [|exact Sall]. apply suffix_cons, suffix_refl.
      * destruct (Ascii.eqb c2 ","%char); [|discriminate].
        apply IHitems in H as [H1 H2]. split; [|exact H2].
        eapply suffix_trans; [exact H1|]. eapply suffix_trans; [|exact Sall].
        apply suffix_cons, skip_ws_suffix.
Qed.

Lemma skip_ws_empty (s : string) : skip_ws s = EmptyString -> all_json_ws s = true.
Proof.
  intros H. destruct (skip_ws_split s) as [w [Hs Hw]]. rewrite H, append_nil_r in Hs.
  now subst.
Qed.

End RefJsonFacts.

(** The reference decoder reads objects from brace to brace. *)
Lemma reference_objects_are_braced : objects_are_braced RefJsonLib.
Proof.
  intros doc obj H. cbn [json_loads RefJsonLib] in H. unfold RefJson.loads in H.
  destruct (RefJson.scan_once (S (String.length doc)) (RefJson.skip_ws doc))
    as [f | [v rest]] eqn:Hscan; [discriminate|].
  destruct (RefJson.skip_ws rest) eqn:Hrest; [|discriminate].
  injection H as ->.
  destruct (RefJsonFacts.scan_shapes (S (String.length doc))) as [Hshape _].
  destruct (Hshape _ _ _ Hscan) as [_ Hobj].
  destruct (Hobj obj eq_refl) as [body Hbody].
  destruct (RefJsonFacts.skip_ws_split doc) as [w [Hdoc Hw]].
  exists w, body, rest. split; [|split].
  - rewrite Hdoc at 1. now rewrite Hbody.
  - exact Hw.
  - now apply RefJsonFacts.skip_ws_empty.
Qed.

(** ** The properties at work on the scenarios *)

Import PyStr Scripted Scenario.

Lemma non_select_never_reaches_execution_witness :
  exists state' sys',
    gen_sql default_config ready (session delete_then_select) =
      (inr state', sys') /\
    QAState.sql state' = Some EmptyString /\
    QAState.last_error state' = Some "Only SELECT allowed." /\
    executed sys' = executed (session delete_then_select) /\
    exec_sql state' sys' = (inr state', sys').
Proof.
  eapply (non_select_never_reaches_execution default_config ready
            (session delete_then_select) teachers_schema
            (sql_resp "DELETE FROM teachers") "DELETE FROM teachers");
    vm_compute; reflexivity.
Defined.

Lemma attempts_are_bounded_witness :
  exists r sys',
    run_question default_config 8 "q" (session fail_then_clarify) = (r, sys') /\
    (3 * max_attempts default_config + 2 <= Z.of_nat 8 -> r <> inl GraphRecursionError) /\
    entries N_attempt (visited sys') <= max_attempts default_config /\
    entries N_gen_sql (visited sys') <= max_attempts default_config /\
    entries N_exec_sql (visited sys') <= max_attempts default_config /\
    (forall ans trace out, r = inr (ans, trace, out) ->
       exists a, QAState.attempts out = Some a /\ a <= max_attempts default_config).
Proof.
  apply (attempts_are_bounded (C := collaborators) default_config 8 "q"
           (teachers_world fail_then_clarify)).
  vm_compute. discriminate.
Defined.




Lemma failure_answer_is_the_fixed_template_witness :
  exists state' sys',
    answer rejected (session delete_then_select) = (inr state', sys') /\
    QAState.answer state' =
      Some (VStr ("Couldn't run a valid SQL query." ++ nl ++ "Error: " ++
                  "Only SELECT allowed." ++ nl ++
                  "Try rephrasing or adding missing details.")) /\
    llm_calls sys' = llm_calls (session delete_then_select) /\
    executed sys' = executed (session delete_then_select) /\
    world sys' = snd (time_ms (world (session delete_then_select))).
Proof.
  apply (failure_answer_is_the_fixed_template rejected (session delete_then_select)
           "Only SELECT allowed."); [discriminate | reflexivity | discriminate].
Defined.




Lemma exec_sql_keeps_the_earlier_error_witness :
  exec_sql rejected (session delete_then_select) =
    (inr rejected, session delete_then_select) /\
  exec_sql ready (session delete_then_select) =
    (inr (QAState.set_last_error "No SQL produced." ready), session delete_then_select) /\
  (exists s1 sys1 r sys2,
     inc_attempts rejected (session delete_then_select) = (inr s1, sys1) /\
     gen_sql default_config s1 sys1 = (r, sys2) /\
     llm_calls sys2 =
       (llm_calls (session delete_then_select) ++
        [_sql_prompt (QAState.question rejected) teachers_schema
           "Only SELECT allowed."])%list).
Proof.
  apply (exec_sql_keeps_the_earlier_error default_config rejected
           (session delete_then_select) "Only SELECT allowed." teachers_schema ready).
  - right. reflexivity.
  - reflexivity.
  - discriminate.
  - reflexivity.
  - left. reflexivity.
  - left. reflexivity.
Defined.

(** A stored query is handed to the database whatever the decision is. *)
Lemma exec_sql_ignores_the_decision
    {J : JsonLib} {C : Collaborators} (state : QAState) (sys : Sys) (q : string) :
  QAState.sql state = Some q -> q <> EmptyString ->
  exists r sys',
    exec_sql state sys = (r, sys') /\
    executed sys' = (executed sys ++ [(q, passed_params state)])%list.
Proof.
  intros Hsql Hq. unfold exec_sql. rewrite Hsql. cbn [or_default].
  apply String.eqb_neq in Hq. rewrite Hq. fold (passed_params state).
  unfold bind, call_execute.
  destruct (execute q (passed_params state) (world sys)) as [[e | [cols rows]] w];
    unfold _trace, bind, now_ms, ret; cbn [world];
    destruct (time_ms w) as [ts w']; eexists _, _; split; reflexivity.
Qed.

(** C3, at the failing input: the first reply is a query on a missing
    table, the second a clarify reply, [max_attempts] is 2.  The session
    ends with decision "clarify", yet the query stored by the first cycle
    was handed to the database a second time, after the clarify reply was
    recorded. *)
Theorem stale_query_runs_after_clarify :
  exists ans trace out sys',
    run_question default_config 25 "q" (session fail_then_clarify) =
      (inr (ans, trace, out), sys') /\
    QAState.decision out = Some "clarify" /\
    ans = VStr "Which?" /\
    nodes_of trace =
      ["load_schema"; "attempt"; "llm_raw"; "gen_sql"; "exec_sql_error";
       "attempt"; "llm_raw"; "exec_sql_error"; "answer"] /\
    executed sys' = [(failing_query, None); (failing_query, None)].
Proof. eexists _, _, _, _. vm_compute. repeat split. Qed.

(** C8, at the failing input: the only reply is a clarify reply.  The run
    completes, the engine enters [exec_sql], and the trace holds no event of
    an execution, neither "exec_sql" nor "exec_sql_error". *)
Theorem clarify_run_has_no_execution_event :
  exists ans trace out sys',
    run_question default_config 25 "q" (session clarify_only) =
      (inr (ans, trace, out), sys') /\
    visited sys' = [N_load_schema; N_attempt; N_gen_sql; N_exec_sql; N_answer] /\
    nodes_of trace = ["load_schema"; "attempt"; "llm_raw"; "answer"].
Proof. eexists _, _, _, _. vm_compute. repeat split. Qed.

(** ** Reasoning along a run of the graph *)

Section RunInduction.

Context {J : JsonLib} {C : Collaborators}.
Variable cfg : AgentConfig.

(** [P] holds on entering a node, [Stop] wherever the run stops (END, an
    exception or the spent budget), [Final] at END. *)
Variable P : node_id -> QAState -> Sys -> Prop.
Variable Stop : Sys -> Prop.
Variable Final : QAState -> Sys -> Prop.

Hypothesis stop_at_entry : forall n state sys, P n state sys -> Stop sys.

Hypothesis step :
  forall n state sys r sys',
    P n state sys -> run_node cfg n state (entered n sys) = (r, sys') ->
    match r with
    | inl _ => Stop sys'
    | inr state' =>
        match next_node cfg n state' with
        | Some m => P m state' sys'
        | None => Stop sys' /\ Final state' sys'
        end
    end.

Lemma run_from_induction (budget : nat) :
  forall n state sys r sys',
    P n state sys -> run_from cfg budget n state sys = (r, sys') ->
    Stop sys' /\ forall out, r = inr out -> Final out sys'.
Proof.
  induction budget as [|budget IH]; intros n state sys r sys' HP Hrun.
  - cbn in Hrun. injection Hrun as <- <-. split; [now apply (stop_at_entry n state)|].
    discriminate.
  - cbn [run_from] in Hrun. cbv beta iota delta [bind enter] in Hrun.
    change {| world := world sys; llm_calls := llm_calls sys; executed := executed sys;
              visited := (visited sys ++ [n])%list |} with (entered n sys) in Hrun.
    destruct (run_node cfg n state (entered n sys)) as [r1 sys1] eqn:Hnode.
    pose proof (step n state sys r1 sys1 HP Hnode) as Hstep.
    destruct r1 as [e | state1].
    + injection Hrun as <- <-. split; [exact Hstep | discriminate].
    + destruct (next_node cfg n state1) as [m|].
      * now apply (IH m state1 sys1).
      * injection Hrun as <- <-. destruct Hstep as [H1 H2]. split; [exact H1|].
        now intros out [= <-].
Qed.

End RunInduction.

(** ** Further properties: what reaches the database *)

(** Case analysis on every branch of a node, keeping the equations. *)
Ltac split_effects_eqn :=
  match goal with
  | |- context [sqlite_master ?w] => destruct (sqlite_master w) as [[?|?] ?] eqn:?
  | |- context [time_ms ?w] => destruct (time_ms w) as [? ?] eqn:?
  | |- context [llm ?p ?w] => destruct (llm p w) as [? ?] eqn:?
  | |- context [execute ?q ?p ?w] => destruct (execute q p w) as [[?|[? ?]] ?] eqn:?
  end.

Ltac split_pure_eqn :=
  match goal with
  | |- context [match ?x with _ => _ end] =>
      lazymatch x with
      | context [match _ with _ => _ end] => fail
      | _ => destruct x eqn:?
      end
  end.

Ltac crack :=
  run_monad; repeat (first [split_effects_eqn | split_pure_eqn]; run_monad).

Ltac unfold_node n :=
  destruct n; cbn [run_node];
  [unfold load_schema | unfold inc_attempts | unfold gen_sql | unfold exec_sql | unfold answer].

Section WhatReachesTheDatabase.

Context {J : JsonLib} {C : Collaborators}.
Variable cfg : AgentConfig.

Import PyStr TextFacts.

Lemma limited_query_is_safe (q n : string) :
  startswith "select" (lower q) = true -> safe_query (q ++ " LIMIT " ++ n).
Proof.
  intros Hsel. split.
  - unfold startswith in *. apply prefix_spec in Hsel as [r Hr].
    apply prefix_spec. exists (r ++ lower (" LIMIT " ++ n)).
    now rewrite lower_append, Hr, append_assoc.
  - rewrite !lower_append. change (lower " LIMIT ") with " limit ".
    apply contains_append.
Qed.

Lemma all_safe_snoc (log : list (string * option value)) (q : string) (p : option value) :
  all_safe log -> safe_query q -> all_safe (log ++ [(q, p)]).
Proof.
  intros Hlog Hq. apply Forall_app. split; [exact Hlog|].
  constructor; [exact Hq | constructor].
Qed.

Lemma safety_is_kept (n : node_id) (state : QAState) (sys : Sys) :
  Safety.at_entry n state sys ->
  forall r sys', run_node cfg n state (entered n sys) = (r, sys') ->
    kept_by_step cfg Safety.at_entry Safety.at_stop Safety.at_end
      n r sys'.
Proof.
  intros [Hst Hlog] r sys'. unfold stored_query_safe in Hst. unfold_node n.
  - crack; intros [= <- <-]; unfold kept_by_step, Safety.at_stop, Safety.at_entry,
      Safety.at_end, stored_query_safe; cbn; auto.
  - crack; intros [= <- <-]; unfold kept_by_step, Safety.at_stop, Safety.at_entry,
      Safety.at_end, stored_query_safe; cbn; auto.
  - crack; intros [= <- <-]; unfold kept_by_step, Safety.at_stop, Safety.at_entry,
      Safety.at_end, stored_query_safe; cbn; auto.
    all: split; [|exact Hlog]; right.
    all: repeat match goal with
                | H : negb _ = false |- _ => apply negb_false_iff in H
                end.
    all: first [ now apply (limited_query_is_safe _ (str_of_int (max_rows cfg)))
               | now split ].
  - unfold or_default in *. destruct (QAState.sql state) as [q|] eqn:Hq.
    + destruct (String.eqb q EmptyString) eqn:Hempty.
      * run_monad. intros [= <- <-]. unfold kept_by_step. cbn [next_node].
        destruct (should_retry cfg _); unfold Safety.at_entry, stored_query_safe; cbn;
          rewrite Hq; auto.
      * apply String.eqb_neq in Hempty. destruct Hst as [Hst|Hst]; [contradiction|].
        crack; intros [= <- <-]; unfold kept_by_step; cbn [next_node];
          destruct (should_retry cfg _); unfold Safety.at_entry, stored_query_safe; cbn;
          rewrite Hq; (split; [now right | now apply all_safe_snoc]).
    + cbn [String.eqb]. run_monad. intros [= <- <-]. unfold kept_by_step. cbn [next_node].
      destruct (should_retry cfg _); unfold Safety.at_entry, stored_query_safe; cbn;
        rewrite Hq; auto.
  - crack; intros [= <- <-]; unfold kept_by_step, Safety.at_stop, Safety.at_entry,
      Safety.at_end, stored_query_safe; cbn; auto.
Qed.


End WhatReachesTheDatabase.

(** ** Further properties: counters, events and calls *)

(** Projections of an updated state or system, computed. *)
Ltac simpl_state :=
  cbn [QAState.question QAState.schema QAState.decision QAState.clarification_question
       QAState.sql QAState.sql_params QAState.attempts QAState.last_error
       QAState.columns QAState.rows QAState.answer QAState.trace
       QAState.set_schema QAState.set_decision QAState.set_clarification_question
       QAState.set_sql QAState.set_sql_params QAState.set_attempts
       QAState.set_last_error QAState.set_columns QAState.set_rows
       QAState.set_answer QAState.set_trace QAState.initial reject
       next_node entered start world llm_calls executed visited or_default] in *.

Section Counters.

Context {J : JsonLib} {C : Collaborators}.
Variable cfg : AgentConfig.

Lemma event_count_app (name : string) (a b : list Event.t) :
  event_count name (a ++ b) = event_count name a + event_count name b.
Proof. unfold event_count. rewrite filter_app, length_app. lia. Qed.

Lemma event_count_one (name : string) (e : Event.t) :
  event_count name [e] = if String.eqb (Event.node e) name then 1 else 0.
Proof. unfold event_count. cbn. now destruct (String.eqb (Event.node e) name). Qed.

Lemma entries_one (n m : node_id) :
  entries n [m] = if node_id_eqb n m then 1 else 0.
Proof. unfold entries. cbn. now destruct (node_id_eqb n m). Qed.

(** Counts of events and entries after one more event or entry. *)
Ltac tally :=
  unfold execution_events in *;
  rewrite ?entries_app, ?event_count_app, ?length_app, ?entries_one, ?event_count_one in *;
  cbn [Event.node node_id_eqb List.length String.eqb Ascii.eqb Bool.eqb] in *;
  try lia.

Lemma counting_is_kept (n : node_id) (state : QAState) (sys : Sys) :
  Counting.at_entry n state sys ->
  forall r sys', run_node cfg n state (entered n sys) = (r, sys') ->
    kept_by_step cfg Counting.at_entry Counting.at_stop Counting.at_end
      n r sys'.
Proof.
  intros [Ha [Hev Hex]] r sys'. unfold_node n.
  all: crack; intros [= <- <-];
    unfold kept_by_step, Counting.at_stop, Counting.at_entry, Counting.at_end,
      Counting.holds; simpl_state;
    try match goal with |- context [should_retry cfg ?s] => destruct (should_retry cfg s) end;
    try exact I;
    try (split; [exact I|]);
    rewrite ?Ha; simpl_state; (split; [f_equal; tally | split; tally]).
Qed.

Lemma calls_are_kept (n : node_id) (state : QAState) (sys : Sys) :
  Calls.at_entry n state sys ->
  forall r sys', run_node cfg n state (entered n sys) = (r, sys') ->
    kept_by_step cfg Calls.at_entry Calls.at_stop Calls.at_end
      n r sys'.
Proof.
  intros [Hans [Hllm Hex]] r sys'. unfold_node n.
  all: crack; intros [= <- <-];
    unfold kept_by_step, Calls.at_stop, Calls.at_entry, Calls.at_end; simpl_state;
    try match goal with |- context [should_retry cfg ?s] => destruct (should_retry cfg s) end;
    repeat split; tally.
Qed.

End Counters.

Section CountersOfARun.

Context {J : JsonLib} {C : Collaborators}.
Variable cfg : AgentConfig.

Lemma counting_of_run (budget : nat) (question : string) (w : World) :
  forall r sys',
    run_from cfg budget N_load_schema (QAState.initial question) (start w) = (r, sys') ->
    forall out, r = inr out -> Counting.holds out sys'.
Proof.
  intros r sys' Hrun.
  refine (proj2 (run_from_induction cfg Counting.at_entry Counting.at_stop Counting.at_end
                   _ _ budget _ _ _ _ _ _ Hrun)).
  - intros n st s _. exact I.
  - intros n st s r1 s1 HP Hnode. exact (counting_is_kept cfg n st s HP r1 s1 Hnode).
  - repeat split.
Qed.

Lemma calls_of_run (budget : nat) (question : string) (w : World) :
  forall r sys',
    run_from cfg budget N_load_schema (QAState.initial question) (start w) = (r, sys') ->
    Calls.at_stop sys'.
Proof.
  intros r sys' Hrun.
  refine (proj1 (run_from_induction cfg Calls.at_entry Calls.at_stop Calls.at_end
                   _ _ budget _ _ _ _ _ _ Hrun)).
  - intros n st s [_ [H1 H2]]. split; [lia | exact H2].
  - intros n st s r1 s1 HP Hnode. exact (calls_are_kept cfg n st s HP r1 s1 Hnode).
  - repeat split; cbn; lia.
Qed.

(** X2. In the state a completed session returns, [attempts] is the number
    of times the engine entered [inc_attempts], and the trace holds exactly
    that many "attempt" events: the counter counts the generation cycles,
    one by one. *)
Theorem attempts_count_the_cycles (budget : nat) (question : string) (w : World) :
  match run_question cfg budget question (start w) with
  | (inr (_, trace, out), sys') =>
      QAState.attempts out = Some (entries N_attempt (visited sys')) /\
      event_count "attempt" trace = entries N_attempt (visited sys')
  | (inl _, _) => True
  end.
Proof.
  unfold run_question, invoke. cbv beta iota delta [bind ret].
  destruct (run_from cfg budget N_load_schema (QAState.initial question) (start w))
    as [r sys'] eqn:Hrun.
  destruct r as [e | out]; [exact I|].
  destruct (counting_of_run budget question w _ _ Hrun out eq_refl) as [H1 [H2 _]].
  now split.
Qed.



End CountersOfARun.

(** ** Further properties: the edges of the nodes *)

Section NodeEdges.

Context {J : JsonLib} {C : Collaborators}.
Variable cfg : AgentConfig.

Import PyStr TextFacts.

(** X5. When the catalog query of [_schema_text] fails, the session ends
    at once with that database error: it is not turned into an answer, no
    prompt is sent to the model and no query is executed. *)
Theorem schema_failure_is_fatal
    (budget : nat) (question e : string) (w w1 : World) :
  sqlite_master w = (inl e, w1) ->
  run_question cfg (S budget) question (start w) =
    (inl (DatabaseError e),
     {| world := w1; llm_calls := []; executed := []; visited := [N_load_schema] |}).
Proof.
  intros Hfail. unfold run_question, invoke. cbn [run_from run_node].
  unfold load_schema. run_monad. cbn [start world llm_calls executed visited app].
  rewrite Hfail. reflexivity.
Qed.

(** X6. A reply that decodes, but not to something [gen_sql] can read (a
    list, a number, a text, null, or an object whose "sql" entry is not
    text), is not recorded as a retryable error: [gen_sql] raises an
    attribute error and the run stops there, before [exec_sql] and
    [answer]. *)
Theorem unreadable_reply_aborts_the_run
    (budget : nat) (state : QAState) (sys : Sys) (sch raw : string) (w : World)
    (v : value) :
  QAState.schema state = Some sch ->
  llm (_sql_prompt (QAState.question state) sch
         (or_default (QAState.last_error state) EmptyString)) (world sys) = (raw, w) ->
  _parse_json raw = inr v ->
  unusable_reply v = true ->
  exists receiver attribute sys',
    run_from cfg (S budget) N_gen_sql state sys =
      (inl (AttributeError receiver attribute), sys') /\
    visited sys' = (visited sys ++ [N_gen_sql])%list /\
    executed sys' = executed sys.
Proof.
  intros Hsch Hllm Hjson Hbad. cbn [run_from run_node]. unfold gen_sql. rewrite Hsch.
  run_monad. rewrite Hllm. run_monad. destruct (time_ms w) as [ts w1]. run_monad.
  rewrite Hjson. unfold unusable_reply in Hbad.
  destruct v as [ | b | n | f | t | l | obj];
    try (eexists _, _, _; split; [reflexivity|]; split; reflexivity).
  apply andb_true_iff in Hbad as [Hty Hsql]. apply negb_true_iff in Hty. rewrite Hty.
  destruct (or_default (Dict.get "sql" obj) (VStr EmptyString))
    as [ | b | n | f | t | l | d]; try discriminate;
    eexists _, _, _; (split; [reflexivity|]; split; reflexivity).
Qed.


Lemma exec_sql_success (state : QAState) (sys : Sys) (q : string)
    (cols : list string) (rows : list (list value)) (w : World) :
  QAState.sql state = Some q -> q <> EmptyString ->
  execute q (passed_params state) (world sys) = (inr (cols, rows), w) ->
  exists ts w',
    time_ms w = (ts, w') /\
    exec_sql state sys =
      (inr (QAState.set_trace
              (QAState.trace state ++
               [Event.make ts "exec_sql" [("rows", VInt (Z.of_nat (List.length rows)))]])
              (QAState.set_last_error EmptyString
                 (QAState.set_columns cols (QAState.set_rows rows state)))),
       {| world := w'; llm_calls := llm_calls sys;
          executed := (executed sys ++ [(q, passed_params state)])%list;
          visited := visited sys |}).
Proof.
  intros Hsql Hq Hexec. unfold exec_sql. rewrite Hsql. cbn [or_default].
  apply String.eqb_neq in Hq. rewrite Hq. run_monad.
  fold (passed_params state). rewrite Hexec. run_monad.
  destruct (time_ms w) as [ts w']. exists ts, w'. split; reflexivity.
Qed.


(** X9. A reply that cannot be decoded is a retryable failure: [gen_sql]
    stores the empty query and "Invalid JSON: " followed by the decoder's
    message as the last error, [exec_sql] then leaves state and database
    alone, and [should_retry] says "retry" exactly when the attempt counter
    is below [max_attempts]. *)
Theorem undecodable_reply_is_retried
    (state : QAState) (sys : Sys) (sch raw e : string) (w : World) :
  QAState.schema state = Some sch ->
  llm (_sql_prompt (QAState.question state) sch
         (or_default (QAState.last_error state) EmptyString)) (world sys) = (raw, w) ->
  _parse_json raw = inl e ->
  exists state' sys',
    gen_sql cfg state sys = (inr state', sys') /\
    QAState.sql state' = Some EmptyString /\
    QAState.last_error state' = Some ("Invalid JSON: " ++ e) /\
    exec_sql state' sys' = (inr state', sys') /\
    executed sys' = executed sys /\
    should_retry cfg state' =
      (if or_default (QAState.attempts state) 0 <? max_attempts cfg
       then retry else no_retry).
Proof.
  intros Hsch Hllm Hjson. unfold gen_sql. rewrite Hsch. run_monad. rewrite Hllm.
  run_monad. destruct (time_ms w) as [ts w1]. run_monad. rewrite Hjson.
  eexists _, _. split; [reflexivity|]. split; [reflexivity|]. split; [reflexivity|].
  split; [|split; reflexivity].
  apply exec_sql_no_query_with_error with (e := "Invalid JSON: " ++ e);
    [now right | reflexivity | discriminate].
Qed.

End NodeEdges.

(** ** Further properties: what a completed session returns *)

Section CompletedSession.

Context {J : JsonLib} {C : Collaborators}.
Variable cfg : AgentConfig.

Lemma starts_with_schema_app (trace more : list Event.t) :
  Shape.starts_with_schema trace -> Shape.starts_with_schema (trace ++ more).
Proof. intros [first [rest [-> H]]]. now exists first, (rest ++ more)%list. Qed.

Lemma shape_is_kept (n : node_id) (state : QAState) (sys : Sys) :
  Shape.at_entry n state sys ->
  forall r sys', run_node cfg n state (entered n sys) = (r, sys') ->
    kept_by_step cfg Shape.at_entry Shape.at_stop Shape.at_end
      n r sys'.
Proof.
  intros HP r sys'. unfold Shape.at_entry in HP. unfold_node n; cbv beta iota in HP.
  - crack; intros [= <- <-]; unfold kept_by_step, Shape.at_stop, Shape.at_entry; simpl_state;
      try exact I.
    rewrite HP. now eexists _, _.
  - crack; intros [= <- <-]; unfold kept_by_step, Shape.at_stop, Shape.at_entry; simpl_state;
      try exact I.
    now apply starts_with_schema_app.
  - crack; intros [= <- <-]; unfold kept_by_step, Shape.at_stop, Shape.at_entry; simpl_state;
      try exact I; rewrite <- ?app_assoc; now try apply starts_with_schema_app.
  - crack; intros [= <- <-]; unfold kept_by_step, Shape.at_stop, Shape.at_entry; simpl_state;
      match goal with |- context [should_retry cfg ?s] => destruct (should_retry cfg s) end;
      now try apply starts_with_schema_app.
  - destruct HP as [first [rest [Htr Hfirst]]].
    crack; intros [= <- <-]; unfold kept_by_step, Shape.at_stop, Shape.at_end; simpl_state;
      try exact I; (split; [exact I|]); rewrite Htr;
      eexists first, rest, _, _; (split; [reflexivity|]);
      (split; [exact Hfirst | reflexivity]).
Qed.

(** X10. What a completed session returns hangs together: the returned
    answer is the "answer" entry of the returned state and the returned
    trace its "trace" entry; the trace starts with the "load_schema" event
    and ends with the "answer" event, whose payload is the returned
    answer. *)
Theorem completed_session_hangs_together
    (budget : nat) (question : string) (w : World) :
  match run_question cfg budget question (start w) with
  | (inr (ans, trace, out), _) =>
      QAState.answer out = Some ans /\
      trace = QAState.trace out /\
      exists first middle ts,
        trace = first :: (middle ++ [Event.make ts "answer" [("answer", ans)]])%list /\
        Event.node first = "load_schema"
  | (inl _, _) => True
  end.
Proof.
  unfold run_question, invoke. cbv beta iota delta [bind ret].
  destruct (run_from cfg budget N_load_schema (QAState.initial question) (start w))
    as [r sys'] eqn:Hrun.
  destruct r as [e | out]; [exact I|].
  assert (Hend : Shape.at_end out sys').
  { refine (proj2 (run_from_induction cfg Shape.at_entry Shape.at_stop Shape.at_end
                     _ _ budget _ _ _ _ _ _ Hrun) out eq_refl).
    - intros n st s _. exact I.
    - intros n st s r1 s1 HP Hnode. exact (shape_is_kept n st s HP r1 s1 Hnode).
    - reflexivity. }
  destruct Hend as [first [middle [ts [a [Htr [Hfirst Hans]]]]]].
  rewrite Hans. cbn [or_default]. split; [reflexivity|]. split; [reflexivity|].
  now exists first, middle, ts.
Qed.

Lemma kept_is_kept (question : string) (w w1 : World) (tables : list (option string))
    (n : node_id) (state : QAState) (sys : Sys) :
  sqlite_master w = (inr tables, w1) ->
  Kept.at_entry question w tables n state sys ->
  forall r sys', run_node cfg n state (entered n sys) = (r, sys') ->
    kept_by_step cfg (Kept.at_entry question w tables) Kept.at_stop
      (Kept.at_end question tables) n r sys'.
Proof.
  intros Hcat [Hq Hn] r sys'. unfold_node n; cbv beta iota in Hn.
  - run_monad. cbn [entered world]. rewrite Hn, Hcat. run_monad.
    destruct (time_ms w1) as [ts w2]. intros [= <- <-].
    unfold kept_by_step, Kept.at_entry. simpl_state. now split.
  - crack; intros [= <- <-]; unfold kept_by_step, Kept.at_stop, Kept.at_entry; simpl_state;
      try exact I; now split.
  - crack; intros [= <- <-]; unfold kept_by_step, Kept.at_stop, Kept.at_entry; simpl_state;
      try exact I; split; congruence.
  - crack; intros [= <- <-]; unfold kept_by_step, Kept.at_stop, Kept.at_entry; simpl_state;
      match goal with |- context [should_retry cfg ?s] => destruct (should_retry cfg s) end;
      now split.
  - crack; intros [= <- <-]; unfold kept_by_step, Kept.at_stop, Kept.at_end; simpl_state;
      try exact I; (split; [exact I|]); now split.
Qed.

(** X11. The question and the schema are set once: in the state a completed
    session returns, the question is the one asked and the schema is the
    text made of the catalog rows read at the start (each definition
    stripped and ended with ";", rows without a definition skipped, joined
    by blank lines), whatever happened in between. *)
Theorem question_and_schema_are_kept
    (budget : nat) (question : string) (w w1 : World) (tables : list (option string)) :
  sqlite_master w = (inr tables, w1) ->
  match run_question cfg budget question (start w) with
  | (inr (_, _, out), _) =>
      QAState.question out = question /\
      QAState.schema out = Some (schema_rows tables)
  | (inl _, _) => True
  end.
Proof.
  intros Hcat. unfold run_question, invoke. cbv beta iota delta [bind ret].
  destruct (run_from cfg budget N_load_schema (QAState.initial question) (start w))
    as [r sys'] eqn:Hrun.
  destruct r as [e | out]; [exact I|].
  refine (proj2 (run_from_induction cfg (Kept.at_entry question w tables) Kept.at_stop
                   (Kept.at_end question tables) _ _ budget _ _ _ _ _ _ Hrun) out eq_refl).
  - intros n st s _. exact I.
  - intros n st s r1 s1 HP Hnode.
    exact (kept_is_kept question w w1 tables n st s Hcat HP r1 s1 Hnode).
  - split; reflexivity.
Qed.

Lemma no_retry_means_exhausted (state : QAState) :
  should_retry cfg state = no_retry -> Verdict.exhausted cfg state.
Proof.
  unfold should_retry, Verdict.exhausted, is_clarify, has_error.
  intros Hsr Hc He. rewrite Hc, He in Hsr. cbn [negb andb] in Hsr.
  destruct (or_default (QAState.attempts state) 0 <? max_attempts cfg) eqn:Hlt;
    [discriminate|]. apply Z.ltb_ge in Hlt. exact Hlt.
Qed.

Lemma verdict_is_kept (n : node_id) (state : QAState) (sys : Sys) :
  Verdict.at_entry cfg n state sys ->
  forall r sys', run_node cfg n state (entered n sys) = (r, sys') ->
    kept_by_step cfg (Verdict.at_entry cfg) Verdict.at_stop (Verdict.at_end cfg)
      n r sys'.
Proof.
  intros HP r sys'. unfold Verdict.at_entry in HP.
  destruct n; cbn [run_node]; cbv beta iota in HP.
  - unfold load_schema. crack; intros [= <- <-]; exact I.
  - unfold inc_attempts. crack; intros [= <- <-]; exact I.
  - unfold gen_sql. crack; intros [= <- <-]; exact I.
  - unfold exec_sql. crack; intros [= <- <-]; unfold kept_by_step; simpl_state;
      match goal with
      | |- context [should_retry cfg ?s] => destruct (should_retry cfg s) eqn:Hsr
      end;
      try exact I; now apply no_retry_means_exhausted.
  - destruct (is_clarify state) eqn:Hc.
    + rewrite (answer_of_clarify state (entered N_answer sys) Hc).
      destruct (time_ms (world (entered N_answer sys))) as [ts w'].
      intros [= <- <-]. unfold kept_by_step. cbn [next_node]. split; [exact I|].
      split; [reflexivity|]. intros Hc'. unfold is_clarify in Hc, Hc'. simpl_state.
      congruence.
    + destruct (has_error state) eqn:He.
      * unfold has_error in He. destruct (QAState.last_error state) as [e|] eqn:Hle;
          [|discriminate].
        apply negb_true_iff, String.eqb_neq in He.
        rewrite (answer_of_failure state (entered N_answer sys) e Hc Hle He).
        destruct (time_ms (world (entered N_answer sys))) as [ts w'].
        intros [= <- <-]. unfold kept_by_step. cbn [next_node]. split; [exact I|].
        split.
        -- intros Hc'. unfold is_clarify in Hc, Hc'. simpl_state. congruence.
        -- intros _ He'. simpl_state. rewrite Hle. cbn [or_default].
           split; [reflexivity|]. apply HP; [exact Hc|].
           unfold has_error. rewrite Hle. now apply negb_true_iff, String.eqb_neq.
      * unfold is_clarify in Hc. unfold has_error in He. unfold answer. rewrite Hc, He.
        crack; intros [= <- <-]; unfold kept_by_step, Verdict.at_stop; simpl_state;
          try exact I; (split; [exact I|]);
          (split; [intros Hc'; unfold is_clarify in Hc'; simpl_state; congruence
                  |intros _ He'; unfold has_error in He'; simpl_state; congruence]).
Qed.

(** X12. The returned answer agrees with the returned state.  With
    decision "clarify" it is the clarification question.  With another
    decision and a non-empty last error it is the fixed failure text quoting
    that error, and (for [max_attempts] at least 1) this happens only once
    all attempts are used: [attempts] equals [max_attempts]. *)
Theorem failure_answer_only_after_all_attempts
    (budget : nat) (question : string) (w : World) :
  1 <= max_attempts cfg ->
  match run_question cfg budget question (start w) with
  | (inr (ans, _, out), _) =>
      (is_clarify out = true ->
       ans = or_default (QAState.clarification_question out) (VStr "Can you clarify?")) /\
      (is_clarify out = false -> has_error out = true ->
       ans = VStr (failure_answer (or_default (QAState.last_error out) EmptyString)) /\
       QAState.attempts out = Some (max_attempts cfg))
  | (inl _, _) => True
  end.
Proof.
  intros Hmax. unfold run_question, invoke. cbv beta iota delta [bind ret].
  destruct (run_from cfg budget N_load_schema (QAState.initial question) (start w))
    as [r sys'] eqn:Hrun.
  destruct r as [e | out]; [exact I|].
  assert (Hend : Verdict.at_end cfg out sys').
  { refine (proj2 (run_from_induction cfg (Verdict.at_entry cfg) Verdict.at_stop
                     (Verdict.at_end cfg) _ _ budget _ _ _ _ _ _ Hrun) out eq_refl).
    - intros n st s _. exact I.
    - intros n st s r1 s1 HP Hnode. exact (verdict_is_kept n st s HP r1 s1 Hnode).
    - exact I. }
  assert (Hpre : may_enter cfg N_load_schema 0) by (unfold may_enter; lia).
  destruct (run_from_bounds cfg budget N_load_schema (QAState.initial question) (start w) 0
              eq_refl Hpre _ sys' Hrun) as [new [_ [_ [Hfinal _]]]].
  destruct (Hfinal out eq_refl) as [a [Ha Hle]].
  destruct Hend as [Hclar Hfail]. split.
  - intros Hc. now rewrite (Hclar Hc).
  - intros Hc He. destruct (Hfail Hc He) as [Hans Hge]. rewrite Hans. split; [reflexivity|].
    rewrite Ha in *. cbn [or_default] in Hge. f_equal. lia.
Qed.

End CompletedSession.

(** ** Further properties: the prompts *)

Module TemplateFacts.
Import PyStr Textwrap TextFacts PromptFacts.

(** A template that starts with a line break and a head line flush left:
    [dedent] and [strip] leave the head as it is and only empty the
    whitespace-only lines of what follows. *)
Lemma template_shape (first last : ascii) (middle rest : string) :
  isspace first = false -> isspace last = false ->
  split_nl (String first (middle ++ one last)) = [String first (middle ++ one last)] ->
  indent_of (String first (middle ++ one last)) = Some EmptyString ->
  normalize (String first (middle ++ one last)) = String first (middle ++ one last) ->
  strip (dedent (nl ++ String first (middle ++ one last) ++ nl ++ rest)) =
    String first (middle ++ one last) ++ rstrip_by isspace (nl ++ normalize rest).
Proof.
  intros Hfirst Hlast Hsplit Hind Hnorm.
  set (head := String first (middle ++ one last)) in *.
  assert (Hn : normalize (nl ++ head ++ nl ++ rest) = nl ++ head ++ nl ++ normalize rest).
  { change (nl ++ head ++ nl ++ rest) with (EmptyString ++ nl ++ head ++ nl ++ rest).
    rewrite !normalize_app, Hnorm. reflexivity. }
  unfold dedent. rewrite Hn, (dedent_flush_left head (normalize rest) Hsplit Hind).
  unfold strip.
  replace (nl ++ head ++ nl ++ normalize rest)
    with ((nl ++ String first middle) ++ String last (nl ++ normalize rest)).
  2:{ subst head. unfold one. same_text. }
  rewrite rstrip_keep by exact Hlast.
  cbn [nl append lstrip_by]. change (isspace "010") with true. cbn iota.
  rewrite Hfirst. subst head. unfold one. same_text.
Qed.

Lemma rules_block_facts :
  sql_prompt_rules = sql_prompt_rules_block ++ nl /\
  normalize sql_prompt_rules_block = sql_prompt_rules_block /\
  exists middle, sql_prompt_rules_block = middle ++ one ":"%char.
Proof.
  split; [reflexivity|]. split; [reflexivity|].
  exists (String.substring 0 (String.length sql_prompt_rules_block - 1)
            sql_prompt_rules_block).
  reflexivity.
Qed.

Lemma answer_head_shape :
  answer_prompt_head =
    String "Y"%char
      (String.substring 1 (String.length answer_prompt_head - 2) answer_prompt_head
       ++ one "."%char).
Proof. reflexivity. Qed.

End TemplateFacts.

Section Prompts.

Context {J : JsonLib}.

Import PyStr Textwrap TextFacts PromptFacts TemplateFacts.

Lemma sql_prompt_closed_form (question schema last_error : string) :
  _sql_prompt question schema last_error =
    sql_prompt_head ++ nl ++ sql_prompt_rules_block ++
    rstrip_by isspace
      (nl ++ normalize (schema ++ nl ++ "User question: " ++ question ++
                        repair_section last_error ++ nl)).
Proof.
  unfold _sql_prompt. rewrite head_shape.
  rewrite (template_shape "Y"%char "."%char head_middle) by reflexivity.
  destruct rules_block_facts as [Hrules [Hnorm [middle Hmid]]].
  rewrite Hrules, !append_assoc, normalize_app, Hnorm.
  f_equal. rewrite Hmid at 1.
  replace (nl ++ (middle ++ one ":"%char) ++ nl ++
           normalize (schema ++ nl ++ "User question: " ++ question ++
                      repair_section last_error ++ nl))
    with ((nl ++ middle) ++ String ":"%char
            (nl ++ normalize (schema ++ nl ++ "User question: " ++ question ++
                              repair_section last_error ++ nl)))
    by (unfold one; same_text).
  rewrite rstrip_keep by reflexivity. rewrite Hmid. unfold one. same_text.
Qed.

Lemma answer_prompt_closed_form (question sql : string)
    (columns : list string) (rows : list (list value)) :
  _answer_prompt question sql columns rows =
    answer_prompt_head ++ nl ++ "If empty, say so and suggest a likely reason." ++
    rstrip_by isspace
      (nl ++ normalize ("User question: " ++ question ++ nl ++ "SQL: " ++ sql ++ nl ++
                        "Result: " ++
                        json_dumps (VDict [("columns", VList (map VStr columns));
                                           ("rows", VList (map VList rows))]) ++ nl)).
Proof.
  unfold _answer_prompt.
  change "You are a helpful assistant. Write a concise, human-readable answer grounded ONLY in the SQL result."
    with answer_prompt_head.
  rewrite answer_head_shape.
  rewrite template_shape by reflexivity.
  rewrite normalize_app.
  change (normalize "If empty, say so and suggest a likely reason.")
    with "If empty, say so and suggest a likely reason.".
  f_equal.
  set (tail := nl ++ normalize _).
  change (nl ++ "If empty, say so and suggest a likely reason." ++ tail)
    with ((nl ++ "If empty, say so and suggest a likely reason") ++
          String "."%char tail).
  rewrite rstrip_keep by reflexivity. reflexivity.
Qed.

(** X13. Whatever the question, the schema and the last error are, the
    generation prompt starts with the instruction line, the rules and the
    line "Schema:", unchanged; what follows is the schema, the question and
    the repair section with whitespace-only lines emptied and trailing
    whitespace dropped.  The answer prompt likewise starts with its two
    instruction lines. *)
Theorem prompts_keep_their_instructions
    (question schema last_error sql : string)
    (columns : list string) (rows : list (list value)) :
  _sql_prompt question schema last_error =
    sql_prompt_head ++ nl ++ sql_prompt_rules_block ++
    rstrip_by isspace
      (nl ++ normalize (schema ++ nl ++ "User question: " ++ question ++
                        repair_section last_error ++ nl)) /\
  _answer_prompt question sql columns rows =
    answer_prompt_head ++ nl ++ "If empty, say so and suggest a likely reason." ++
    rstrip_by isspace
      (nl ++ normalize ("User question: " ++ question ++ nl ++ "SQL: " ++ sql ++ nl ++
                        "Result: " ++
                        json_dumps (VDict [("columns", VList (map VStr columns));
                                           ("rows", VList (map VList rows))]) ++ nl)).
Proof.
  split; [apply sql_prompt_closed_form | apply answer_prompt_closed_form].
Qed.

(** X14. The scripted model of the tests recognises every generation prompt,
    whatever the question, the schema and the last error are: it answers
    with the first reply of its queue, logs the prompt, and drops that reply
    unless it is the last one, which repeats. *)
Theorem scripted_model_serves_every_generation_prompt
    (question schema last_error reply : string) (later : list string)
    (w : Scripted.script) :
  Scripted.queue w = reply :: later ->
  fst (Scripted.fake_llm (_sql_prompt question schema last_error) w) = reply /\
  Scripted.sql_calls (snd (Scripted.fake_llm (_sql_prompt question schema last_error) w)) =
    (Scripted.sql_calls w ++ [_sql_prompt question schema last_error])%list /\
  Scripted.queue (snd (Scripted.fake_llm (_sql_prompt question schema last_error) w)) =
    match later with
    | [] => [reply]
    | _ :: _ => later
    end /\
  Scripted.final_answer (snd (Scripted.fake_llm (_sql_prompt question schema last_error) w)) =
    Scripted.final_answer w.
Proof.
  intros Hqueue. unfold Scripted.fake_llm.
  assert (Hmark : contains "Convert the user question"
                    (_sql_prompt question schema last_error) = true).
  { rewrite sql_prompt_closed_form.
    change sql_prompt_head
      with ("You are a careful data assistant. " ++ "Convert the user question" ++
            " into a single SQL SELECT query.").
    rewrite !append_assoc. apply contains_append. }
  rewrite Hmark, Hqueue. cbn [fst snd Scripted.sql_calls Scripted.queue Scripted.final_answer].
  destruct later; repeat split; reflexivity.
Qed.

End Prompts.

(** ** Further properties: whole sessions *)

Section Sessions.

Context {J : JsonLib} {C : Collaborators}.
Variable cfg : AgentConfig.

Import PyStr.

Lemma run_from_step (budget : nat) (n : node_id) (state state' : QAState)
    (sys sys' : Sys) :
  run_node cfg n state (entered n sys) = (inr state', sys') ->
  run_from cfg (S budget) n state sys =
    match next_node cfg n state' with
    | Some m => run_from cfg budget m state' sys'
    | None => (inr state', sys')
    end.
Proof.
  intros Hnode. cbn [run_from]. unfold bind at 1 2. unfold enter.
  change {| world := world sys; llm_calls := llm_calls sys; executed := executed sys;
            visited := (visited sys ++ [n])%list |} with (entered n sys).
  rewrite Hnode. destruct (next_node cfg n state'); reflexivity.
Qed.


Lemma select_is_not_empty (q : string) :
  startswith "select" (lower q) = true -> (q =? EmptyString)%string = false.
Proof. destruct q; [discriminate | reflexivity]. Qed.

Lemma stored_query_is_not_empty (text : string) :
  startswith "select" (lower (rstrip_chars ";" (strip text))) = true ->
  (stored_query cfg text =? EmptyString)%string = false.
Proof.
  intros Hsel. unfold stored_query.
  destruct (rstrip_chars ";" (strip text)) as [ | c r]; [discriminate|].
  destruct (negb _); reflexivity.
Qed.

Lemma params_sent (obj : list (string * value)) :
  (if truthy (or_empty_dict (Some (or_empty_dict (Dict.get "params" obj))))
   then Some (or_empty_dict (Some (or_empty_dict (Dict.get "params" obj))))
   else None) = reply_params obj.
Proof.
  unfold reply_params, or_empty_dict.
  destruct (Dict.get "params" obj) as [v | ]; [ | reflexivity].
  destruct (truthy v) eqn:Hv; cbn [truthy]; rewrite ?Hv; reflexivity.
Qed.


End Sessions.

(** ** Further properties: the replies of the test helpers *)

Section Replies.

Import PyStr TextFacts Scripted.

Lemma scanstring_plain (begin q rest : string) :
  plain_text q = true ->
  RefJson.scanstring begin (q ++ String RefJson.quote rest) = inr (q, rest).
Proof.
  induction q as [ | c q IH]; intros Hq.
  - reflexivity.
  - cbn [plain_text] in Hq. apply andb_true_iff in Hq as [Hc Hq].
    unfold plain_char in Hc.
    apply andb_true_iff in Hc as [Hc Hhi]. apply andb_true_iff in Hc as [Hc Hlo].
    apply andb_true_iff in Hc as [Hquote Hback].
    apply negb_true_iff in Hquote, Hback.
    cbn [append RefJson.scanstring]. rewrite Hquote, Hback.
    apply Nat.leb_le in Hlo.
    destruct (code c <=? 31)%nat eqn:Hctl; [apply Nat.leb_le in Hctl; lia|].
    rewrite (IH Hq). reflexivity.
Qed.

Lemma scan_text (fuel : nat) (text rest : string) :
  plain_text text = true ->
  RefJson.scan_once (S fuel) (String RefJson.quote (text ++ String RefJson.quote rest)) =
    inr (VStr text, rest).
Proof.
  intros Htext. cbn [RefJson.scan_once].
  change (Ascii.eqb RefJson.quote RefJson.quote) with true. cbn iota.
  rewrite scanstring_plain by exact Htext. reflexivity.
Qed.

(** One "key": value pair of an object, the value read by [scan_once]. *)
Lemma parse_pair (fuel : nat) (acc : Dict.t) (key after : string)
    (v : value) (rest : string) :
  plain_text key = true ->
  RefJson.scan_once fuel (RefJson.skip_ws after) = inr (v, rest) ->
  RefJson.parse_pairs (S fuel) acc
    (String RefJson.quote (key ++ String RefJson.quote (String ":"%char after))) =
    match RefJson.skip_ws rest with
    | String c r as here =>
        if Ascii.eqb c "}"%char then inr (VDict (Dict.set key v acc), r)
        else if Ascii.eqb c ","%char
        then RefJson.parse_pairs fuel (Dict.set key v acc) (RefJson.skip_ws r)
        else inl (RefJson.Failure "Expecting ',' delimiter" here)
    | EmptyString => inl (RefJson.Failure "Expecting ',' delimiter" EmptyString)
    end.
Proof.
  intros Hkey Hvalue. cbn [RefJson.parse_pairs].
  change (Ascii.eqb RefJson.quote RefJson.quote) with true. cbn iota.
  rewrite scanstring_plain by exact Hkey.
  cbn [RefJson.skip_ws lstrip_by]. change (RefJson.is_ws ":") with false. cbn iota.
  change (Ascii.eqb ":" ":") with true. cbn iota.
  fold (RefJson.skip_ws after). rewrite Hvalue. reflexivity.
Qed.

Ltac skip_blanks :=
  cbn [RefJson.skip_ws lstrip_by RefJson.is_ws Ascii.eqb Bool.eqb orb].

Ltac read_pair key value_proof :=
  etransitivity;
  [ eapply (parse_pair _ _ key); [reflexivity | skip_blanks; value_proof] | skip_blanks ].

Lemma scan_empty_object (fuel : nat) (rest : string) :
  RefJson.scan_once (S fuel) (String "{"%char (String "}"%char rest)) = inr (VDict [], rest).
Proof. reflexivity. Qed.

Lemma scan_sql_resp (fuel : nat) (q : string) :
  plain_text q = true ->
  RefJson.scan_once (S (S (S (S (S fuel))))) (sql_resp q) = inr (sql_reply q, EmptyString).
Proof.
  intros Hq. unfold sql_resp, dquote. cbn [append].
  cbn [RefJson.scan_once]. skip_blanks.
  read_pair "type" ltac:(apply (scan_text _ "sql"); reflexivity).
  read_pair "sql" ltac:(apply (scan_text _ q); exact Hq).
  read_pair "params" ltac:(apply scan_empty_object).
  reflexivity.
Qed.

Lemma scan_clarify_resp (fuel : nat) (q : string) :
  plain_text q = true ->
  RefJson.scan_once (S (S (S (S fuel)))) (clarify_resp q) = inr (clarify_reply q, EmptyString).
Proof.
  intros Hq. unfold clarify_resp, dquote. cbn [append].
  cbn [RefJson.scan_once]. skip_blanks.
  read_pair "type" ltac:(apply (scan_text _ "clarify"); reflexivity).
  read_pair "question" ltac:(apply (scan_text _ q); exact Hq).
  reflexivity.
Qed.

Lemma sql_resp_is_stripped (q : string) : strip (sql_resp q) = sql_resp q.
Proof.
  unfold strip.
  change (sql_resp q) with
    (("{" ++ dquote ++ "type" ++ dquote ++ ": " ++ dquote ++ "sql" ++ dquote ++ ", " ++
      dquote ++ "sql" ++ dquote ++ ": " ++ dquote ++ q) ++
     String RefJson.quote (", " ++ dquote ++ "params" ++ dquote ++ ": {}}")).
  rewrite PromptFacts.rstrip_keep by reflexivity. reflexivity.
Qed.

Lemma clarify_resp_is_stripped (q : string) : strip (clarify_resp q) = clarify_resp q.
Proof.
  unfold strip.
  change (clarify_resp q) with
    (("{" ++ dquote ++ "type" ++ dquote ++ ": " ++ dquote ++ "clarify" ++ dquote ++ ", " ++
      dquote ++ "question" ++ dquote ++ ": " ++ dquote ++ q) ++
     String RefJson.quote "}").
  rewrite PromptFacts.rstrip_keep by reflexivity. reflexivity.
Qed.

Lemma reply_is_long (q : string) :
  exists n, String.length (sql_resp q) = S (S (S (S n))) /\
  exists m, String.length (clarify_resp q) = S (S (S m)).
Proof. eexists. split; [reflexivity|]. eexists. reflexivity. Qed.

Lemma escape_plain (q : string) : plain_text q = true -> RefJsonDumps.escape q = q.
Proof.
  induction q as [ | c q IH]; intros Hq; [reflexivity|].
  cbn [plain_text] in Hq. apply andb_true_iff in Hq as [Hc Hq].
  unfold plain_char in Hc.
  apply andb_true_iff in Hc as [Hc _]. apply andb_true_iff in Hc as [Hc Hlo].
  apply andb_true_iff in Hc as [Hquote Hback].
  apply negb_true_iff in Hquote, Hback. apply Nat.leb_le in Hlo.
  cbn [RefJsonDumps.escape]. rewrite (IH Hq). unfold RefJsonDumps.escape_char.
  rewrite Hquote, Hback.
  repeat match goal with
         | |- context [Ascii.eqb c ?x] =>
             let H := fresh "Heq" in
             destruct (Ascii.eqb c x) eqn:H;
             [apply Ascii.eqb_eq in H; subst c; cbv in Hlo; lia|]
         end.
  destruct (code c <? 32)%nat eqn:Hctl; [apply Nat.ltb_lt in Hctl; lia | reflexivity].
Qed.

Lemma dumps_object (pairs : list (string * value)) :
  RefJsonDumps.dumps (VDict pairs) =
    "{" ++ join ", " (map (fun p => RefJsonDumps.quoted (fst p) ++ ": " ++
                                    RefJsonDumps.dumps (snd p)) pairs) ++ "}".
Proof. reflexivity. Qed.

Lemma dumps_text (text : string) :
  RefJsonDumps.dumps (VStr text) = RefJsonDumps.quoted text.
Proof. reflexivity. Qed.

Lemma quoted_plain (text : string) :
  plain_text text = true -> RefJsonDumps.quoted text = dquote ++ text ++ dquote.
Proof. intros H. unfold RefJsonDumps.quoted. now rewrite escape_plain. Qed.

(** X17. The replies the test helpers write are read back as the objects
    they were written from: for a query or counter-question of printable
    ASCII without quote and backslash, the helper's text is the reference
    serialisation of its object, and [_parse_json] with the reference
    decoder returns the three-entry object of [sql_resp] and the two-entry
    object of [clarify_resp]. *)
Theorem helper_replies_are_read_back (q : string) :
  plain_text q = true ->
  (sql_resp q = RefJsonDumps.dumps (sql_reply q) /\
   @_parse_json RefJsonLib (sql_resp q) = inr (sql_reply q)) /\
  (clarify_resp q = RefJsonDumps.dumps (clarify_reply q) /\
   @_parse_json RefJsonLib (clarify_resp q) = inr (clarify_reply q)).
Proof.
  intros Hq. destruct (reply_is_long q) as [n [Hn [m Hm]]].
  unfold _parse_json. rewrite sql_resp_is_stripped, clarify_resp_is_stripped.
  cbn [json_loads RefJsonLib]. unfold RefJson.loads. rewrite Hn, Hm.
  assert (Hs : RefJson.skip_ws (sql_resp q) = sql_resp q) by reflexivity.
  assert (Hc : RefJson.skip_ws (clarify_resp q) = clarify_resp q) by reflexivity.
  rewrite Hs, Hc, scan_sql_resp, scan_clarify_resp by exact Hq.
  unfold sql_reply, clarify_reply.
  split; (split; [ | reflexivity]).
  - unfold sql_reply. rewrite dumps_object. cbn [map fst snd join String.concat].
    rewrite !dumps_text, !quoted_plain by first [exact Hq | reflexivity].
    unfold sql_resp, dquote.
    change (RefJsonDumps.dumps (VDict [])) with "{}".
    PromptFacts.same_text.
  - unfold clarify_reply. rewrite dumps_object. cbn [map fst snd join String.concat].
    rewrite !dumps_text, !quoted_plain by first [exact Hq | reflexivity].
    unfold clarify_resp, dquote.
    PromptFacts.same_text.
Qed.

End Replies.

(** ** The further properties at work on the scenarios *)

Import PyStr Scripted Scenario MoreScenarios.


Lemma schema_failure_is_fatal_witness :
  run_question default_config 8 "q" (@start collaborators locked_world) =
    (inl (DatabaseError "database is locked"),
     {| world := locked_world; llm_calls := []; executed := [];
        visited := [N_load_schema] |}).
Proof.
  apply (schema_failure_is_fatal (C := collaborators) default_config 7 "q"
           "database is locked" locked_world locked_world).
  reflexivity.
Defined.

Lemma unreadable_reply_aborts_the_run_witness :
  exists receiver attribute sys',
    run_from default_config 4 N_gen_sql ready (session [listed_reply]) =
      (inl (AttributeError receiver attribute), sys') /\
    visited sys' = (visited (session [listed_reply]) ++ [N_gen_sql])%list /\
    executed sys' = executed (session [listed_reply]).
Proof.
  eapply (unreadable_reply_aborts_the_run (C := collaborators) default_config 3 ready
            (session [listed_reply]) teachers_schema listed_reply);
    vm_compute; reflexivity.
Defined.


Lemma undecodable_reply_is_retried_witness :
  exists e state' sys',
    _parse_json "not json at all" = inl e /\
    gen_sql default_config ready (session garbage_only) = (inr state', sys') /\
    QAState.sql state' = Some EmptyString /\
    QAState.last_error state' = Some ("Invalid JSON: " ++ e) /\
    exec_sql state' sys' = (inr state', sys') /\
    executed sys' = executed (session garbage_only) /\
    should_retry default_config state' =
      (if or_default (QAState.attempts ready) 0 <? max_attempts default_config
       then retry else no_retry).
Proof.
  exists "Expecting value: line 1 column 1 (char 0)".
  assert (Hparse : _parse_json "not json at all" =
                     inl "Expecting value: line 1 column 1 (char 0)")
    by (vm_compute; reflexivity).
  destruct (undecodable_reply_is_retried (C := collaborators) default_config ready
              (session garbage_only) teachers_schema "not json at all"
              "Expecting value: line 1 column 1 (char 0)"
              (snd (fake_llm (_sql_prompt "q" teachers_schema EmptyString)
                      (teachers_world garbage_only)))
              eq_refl ltac:(vm_compute; reflexivity) Hparse)
    as [state' [sys' H]].
  exists state', sys'. split; [exact Hparse | exact H].
Defined.

Lemma question_and_schema_are_kept_witness :
  match run_question default_config 8 "q" (session select_only) with
  | (inr (_, _, out), _) =>
      QAState.question out = "q" /\
      QAState.schema out =
        Some (schema_rows teachers_catalog)
  | (inl _, _) => True
  end.
Proof.
  apply (question_and_schema_are_kept (C := collaborators) default_config 8 "q"
           (teachers_world select_only) (teachers_world select_only)).
  reflexivity.
Defined.

Lemma failure_answer_only_after_all_attempts_witness :
  match run_question default_config 8 "q"
          (session [sql_resp "SELECT * FROM fake_table"]) with
  | (inr (ans, _, out), _) =>
      (is_clarify out = true ->
       ans = or_default (QAState.clarification_question out) (VStr "Can you clarify?")) /\
      (is_clarify out = false -> has_error out = true ->
       ans = VStr (failure_answer (or_default (QAState.last_error out) EmptyString)) /\
       QAState.attempts out = Some (max_attempts default_config))
  | (inl _, _) => True
  end.
Proof.
  apply (failure_answer_only_after_all_attempts (C := collaborators) default_config 8 "q"
           (teachers_world [sql_resp "SELECT * FROM fake_table"])).
  vm_compute. discriminate.
Defined.

Lemma scripted_model_serves_every_generation_prompt_witness :
  fst (fake_llm (_sql_prompt "q" teachers_schema EmptyString)
         (teachers_world fail_then_clarify)) = sql_resp "SELECT * FROM fake_table" /\
  sql_calls (snd (fake_llm (_sql_prompt "q" teachers_schema EmptyString)
                    (teachers_world fail_then_clarify))) =
    (sql_calls (teachers_world fail_then_clarify) ++
     [_sql_prompt "q" teachers_schema EmptyString])%list /\
  queue (snd (fake_llm (_sql_prompt "q" teachers_schema EmptyString)
                (teachers_world fail_then_clarify))) = [clarify_resp "Which?"] /\
  final_answer (snd (fake_llm (_sql_prompt "q" teachers_schema EmptyString)
                       (teachers_world fail_then_clarify))) =
    final_answer (teachers_world fail_then_clarify).
Proof.
  apply (scripted_model_serves_every_generation_prompt "q" teachers_schema EmptyString
           (sql_resp "SELECT * FROM fake_table") [clarify_resp "Which?"]
           (teachers_world fail_then_clarify)).
  reflexivity.
Defined.



Lemma helper_replies_are_read_back_witness :
  (sql_resp "SELECT name FROM teachers" =
     RefJsonDumps.dumps (sql_reply "SELECT name FROM teachers") /\
   _parse_json (sql_resp "SELECT name FROM teachers") =
     inr (sql_reply "SELECT name FROM teachers")) /\
  (clarify_resp "SELECT name FROM teachers" =
     RefJsonDumps.dumps (clarify_reply "SELECT name FROM teachers") /\
   _parse_json (clarify_resp "SELECT name FROM teachers") =
     inr (clarify_reply "SELECT name FROM teachers")).
Proof.
  apply (helper_replies_are_read_back "SELECT name FROM teachers"). reflexivity.
Defined.
